(** * vouchsafe-node: the authenticated client's token cache and 401 retry

    A shallow embedding of the two [VouchsafeClient] implementations of the
    repository:

    - [FetchClient]: the client written over the fetch endpoints
      ([./openapi/endpoints]), whose calls return [{ status, data }];
    - [ApiClient]: the client written over the generated [*Api] classes
      ([./openapi/apis/...]), whose calls reject with a [ResponseError].

    Asynchronous code is modelled sequentially: every [await] is an
    ordinary step of a state-and-exception monad.  The state carries the
    instance's private fields, the outside world (clock and network) and a
    log of the network calls that were issued. *)

From Stdlib Require Import ZArith String List Bool Lia DecimalString.
From Stdlib Require Import Permutation Sorted.
Import ListNotations.
Set Warnings "-register-all".
Open Scope string_scope.
Open Scope Z_scope.

(** ** JavaScript values *)

Module JS.

(** Values that come out of [JSON.parse], plus [undefined].  Numbers are
    the integer-valued ones. *)
Inductive JSValue : Type :=
| JUndefined
| JNull
| JBool (b : bool)
| JNum (n : Z)
| JStr (s : string)
| JArr (items : list JSValue)
| JObj (fields : list (string * JSValue)).

(** ECMAScript ToBoolean. *)
Definition truthy (v : JSValue) : bool :=
  match v with
  | JUndefined | JNull => false
  | JBool b => b
  | JNum n => negb (n =? 0)
  | JStr s => negb (String.eqb s "")
  | JArr _ | JObj _ => true
  end.

Definition nullish (v : JSValue) : bool :=
  match v with
  | JUndefined | JNull => true
  | _ => false
  end.

Fixpoint own_property (k : string) (fields : list (string * JSValue)) : JSValue :=
  match fields with
  | [] => JUndefined
  | (k', v) :: rest => if String.eqb k k' then v else own_property k rest
  end.

(** [v.k] for a property name [k] that no built-in prototype defines (the
    client reads [access_token], [expires_at] and [message] only).  [None]
    is the TypeError of reading a property of [undefined] or [null]. *)
Definition Get (v : JSValue) (k : string) : option JSValue :=
  match v with
  | JUndefined | JNull => None
  | JObj fields => Some (own_property k fields)
  | _ => Some JUndefined
  end.

(** [v?.k] *)
Definition GetOptional (v : JSValue) (k : string) : JSValue :=
  match Get v k with
  | Some x => x
  | None => JUndefined
  end.

(** [a ?? b] *)
Definition coalesce (a b : JSValue) : JSValue :=
  if nullish a then b else a.

(** Number::toString for an integer of magnitude below 10^21. *)
Definition Number_toString (n : Z) : string :=
  NilZero.string_of_int (Z.to_int n).

(** A [Date] object: its time value in milliseconds, or the invalid date
    whose [getTime()] is NaN. *)
Inductive Date : Type :=
| TimeValue (ms : Z)
| InvalidDate.

(** [a.getTime() < b.getTime() - delta], where [a] is a valid date.  Any
    comparison with NaN is false.  Time values lie within 8.64e15 in
    magnitude, so the subtraction is exact on doubles. *)
Definition before_minus (a : Z) (b : Date) (delta : Z) : bool :=
  match b with
  | TimeValue ms => a <? ms - delta
  | InvalidDate => false
  end.

End JS.
Import JS.

(** ** Errors and outcomes *)

(** A fetch [Response] as far as the clients read it; [json] is [None]
    when reading or parsing the body rejects. *)
Record FetchResponse : Type := {
  response_status : Z;
  response_statusText : string;
  response_json : option JSValue
}.

(** Whatever a JavaScript [throw] (or a rejected promise) can carry here. *)
Inductive Thrown : Type :=
| VouchsafeApiError (statusCode : Z) (responseBody : JSValue) (message : string)
| ResponseError (response : FetchResponse)
| OtherError (name : string).

Definition TypeError : Thrown := OtherError "TypeError".

Inductive Outcome (A : Type) : Type :=
| Returned (a : A)
| Threw (e : Thrown).
Arguments Returned {A} a.
Arguments Threw {A} e.

(** ** Data shared by both clients *)

Record VouchsafeClientOptions : Type := {
  client_id : string;
  client_secret : string
}.

(** [AuthenticateInput] *)
Record AuthenticateInput : Type := {
  input_client_id : string;
  input_client_secret : string
}.

(** [RequestInit] as the client builds it: [{ headers: { Authorization } }]. *)
Record RequestInit : Type := {
  headers_Authorization : string
}.

(** The private fields of an instance. *)
Record Client : Type := {
  token : JSValue;
  tokenExpiry : option Date;
  options : VouchsafeClientOptions
}.

(** [new VouchsafeClient(options)] *)
Definition constructor (o : VouchsafeClientOptions) : Client :=
  {| token := JUndefined; tokenExpiry := None; options := o |}.

(** [this.token = undefined; this.tokenExpiry = undefined] *)
Definition invalidate (c : Client) : Client :=
  {| token := JUndefined; tokenExpiry := None; options := options c |}.

Definition set_token (c : Client) (t : JSValue) (e : Date) : Client :=
  {| token := t; tokenExpiry := Some e; options := options c |}.

(** [const bufferMs = 5 * 60 * 1000 // 5 minutes] *)
Definition bufferMs : Z := 5 * 60 * 1000.

(** The test that guards the cache in [getAccessToken]:
    [this.token && this.tokenExpiry && now.getTime() < this.tokenExpiry.getTime() - bufferMs].
    A [Date] object is always truthy. *)
Definition cache_valid (c : Client) (now : Z) : bool :=
  truthy (token c) &&
  match tokenExpiry c with
  | Some d => before_minus now d bufferMs
  | None => false
  end.

(** Network calls that a run issued, oldest first. *)
Inductive Event : Type :=
| EvAuthenticate (body : AuthenticateInput)
| EvRequest (opts : RequestInit)
| EvApiCall (operation : string).

Definition is_authenticate (e : Event) : bool :=
  match e with EvAuthenticate _ => true | _ => false end.

Definition is_request (e : Event) : bool :=
  match e with EvAuthenticate _ => false | _ => true end.

Definition authenticate_calls (l : list Event) : nat :=
  length (filter is_authenticate l).

Definition request_calls (l : list Event) : nat :=
  length (filter is_request l).

(** ** The monad of asynchronous steps *)

Section Monad.

(** The world outside the instance: clock and network. *)
Variable W : Type.

Record State : Type := {
  client : Client;
  world : W;
  trace : list Event
}.

(** A throw keeps the state reached so far. *)
Definition M (A : Type) : Type := State -> Outcome A * State.

Definition ret {A} (a : A) : M A := fun st => (Returned a, st).

Definition throw {A} (e : Thrown) : M A := fun st => (Threw e, st).

Definition bind {A B} (m : M A) (k : A -> M B) : M B :=
  fun st =>
    match m st with
    | (Returned a, st') => k a st'
    | (Threw e, st') => (Threw e, st')
    end.

(** [try { return await m } catch (err) { handler }] *)
Definition try_catch {A} (m : M A) (handler : Thrown -> M A) : M A :=
  fun st =>
    match m st with
    | (Returned a, st') => (Returned a, st')
    | (Threw e, st') => handler e st'
    end.

Definition get_client : M Client := fun st => (Returned (client st), st).

(** An assignment to the instance's fields. *)
Definition modify_client (f : Client -> Client) : M unit :=
  fun st =>
    (Returned tt, {| client := f (client st); world := world st; trace := trace st |}).

(** A call into the world, logged as [ev]. *)
Definition io {A} (ev : Event) (f : W -> Outcome A * W) : M A :=
  fun st =>
    let (r, w') := f (world st) in
    (r, {| client := client st; world := w'; trace := trace st ++ [ev] |}).

(** Reading the clock: [new Date()]. *)
Definition read_clock (clock : W -> Z * W) : M Z :=
  fun st =>
    let (t, w') := clock (world st) in
    (Returned t, {| client := client st; world := w'; trace := trace st |}).

(** A property read that may raise a TypeError. *)
Definition get_prop (v : JSValue) (k : string) : M JSValue :=
  match Get v k with
  | Some x => ret x
  | None => throw TypeError
  end.

End Monad.

Arguments client {W} _.
Arguments world {W} _.
Arguments trace {W} _.
Arguments Build_State {W} _ _ _.
Arguments ret {W A} _ _.
Arguments throw {W A} _ _.
Arguments bind {W A B} _ _ _.
Arguments try_catch {W A} _ _ _.
Arguments get_client {W} _.
Arguments modify_client {W} _ _.
Arguments io {W A} _ _ _.
Arguments read_clock {W} _ _.
Arguments get_prop {W} _ _ _.

Declare Scope js_scope.
Delimit Scope js_scope with js.
Notation "'let*' x ':=' m 'in' k" := (bind m (fun x => k))
  (at level 10, x name, m at level 100, k at level 200) : js_scope.
Notation "m ';;;' k" := (bind m (fun _ => k))
  (at level 100, right associativity) : js_scope.
Open Scope js_scope.

(** ** The client over the fetch endpoints *)

Module FetchClient.

(** What an endpoint call resolves to: [{ status, data }]. *)
Record Response : Type := {
  status : Z;
  data : JSValue
}.

Section Client.

Variable W : Type.

(** [new Date()]: the current time in milliseconds. *)
Variable Date_now : W -> Z * W.

(** [new Date(v)] for a value [v]. *)
Variable Date_of : JSValue -> Date.

(** ECMAScript ToString on the values that are not strings. *)
Variable ToString_other : JSValue -> string.

(** The [authenticate] endpoint. *)
Variable authenticate : AuthenticateInput -> W -> Outcome Response * W.

Definition ToString (v : JSValue) : string :=
  match v with
  | JStr s => s
  | _ => ToString_other v
  end.

(** The endpoint calls that the public methods wrap: [(opts) => ...]. *)
Definition Endpoint : Type := RequestInit -> W -> Outcome Response * W.

Definition authBody_of (c : Client) : AuthenticateInput :=
  {| input_client_id := client_id (options c);
     input_client_secret := client_secret (options c) |}.

Definition getAccessToken : M W JSValue :=
  let* now := read_clock Date_now in
  let* this := get_client in
  if cache_valid this now then ret (token this)
  else
    let authBody := authBody_of this in
    let* response := io (EvAuthenticate authBody) (authenticate authBody) in
    if negb (status response =? 201) then
      throw (VouchsafeApiError (status response) (data response)
                               "Authentication failed")
    else
      let* access_token := get_prop (data response) "access_token" in
      if negb (truthy access_token) then
        throw (VouchsafeApiError 201 (data response)
                                 "Authentication response missing token or expiry")
      else
        let* expires_at := get_prop (data response) "expires_at" in
        if negb (truthy expires_at) then
          throw (VouchsafeApiError 201 (data response)
                                   "Authentication response missing token or expiry")
        else
          modify_client (fun c => set_token c access_token (Date_of expires_at)) ;;;
          ret access_token.

Definition authHeaders : M W RequestInit :=
  let* token := getAccessToken in
  ret {| headers_Authorization := "Bearer " ++ ToString token |}.

Definition is_success (s : Z) : bool := (s =? 200) || (s =? 201).

(** The third argument of [new VouchsafeApiError(...)] in [attempt]:
    [(response.data as any)?.message ?? `Request failed with status ${response.status}`],
    as [Error] stores it. *)
Definition error_message (response : Response) : string :=
  ToString
    (coalesce (GetOptional (data response) "message")
              (JStr ("Request failed with status "
                       ++ Number_toString (status response)))).

Definition attempt (fn : Endpoint) : M W JSValue :=
  let* opts := authHeaders in
  let* response := io (EvRequest opts) (fn opts) in
  if is_success (status response) then ret (data response)
  else
    throw (VouchsafeApiError (status response) (data response)
                             (error_message response)).

Definition withErrorHandling (fn : Endpoint) : M W JSValue :=
  try_catch (attempt fn)
    (fun err =>
       match err with
       | VouchsafeApiError statusCode _ _ =>
           if statusCode =? 401 then
             modify_client invalidate ;;;
             attempt fn
           else throw err
       | _ => throw err
       end).

(** *** Public methods *)

Variables ListVerificationsParams RequestVerificationInput SmartLookupInput
          EvisaVerificationInput VerifySupportingDocumentBody : Type.

(** The functions imported from [./openapi/endpoints]. *)
Variable endpoints_getVerification : string -> Endpoint.
Variable endpoints_listVerifications : option ListVerificationsParams -> Endpoint.
Variable endpoints_requestVerification : RequestVerificationInput -> Endpoint.
Variable endpoints_performSmartLookup : SmartLookupInput -> Endpoint.
Variable endpoints_searchPostcode : string -> Endpoint.
Variable endpoints_listFlows : Endpoint.
Variable endpoints_getFlow : string -> Endpoint.
Variable endpoints_getArtefact : string -> Endpoint.
Variable endpoints_verifyEvisa : EvisaVerificationInput -> Endpoint.
Variable endpoints_verifySupportingDocument : VerifySupportingDocumentBody -> Endpoint.

Definition getVerification (id : string) : M W JSValue :=
  withErrorHandling (fun opts => endpoints_getVerification id opts).

Definition listVerifications (params : option ListVerificationsParams) : M W JSValue :=
  withErrorHandling (fun opts => endpoints_listVerifications params opts).

Definition requestVerification (input : RequestVerificationInput) : M W JSValue :=
  withErrorHandling (fun opts => endpoints_requestVerification input opts).

Definition performSmartLookup (input : SmartLookupInput) : M W JSValue :=
  withErrorHandling (fun opts => endpoints_performSmartLookup input opts).

Definition searchPostcode (postcode : string) : M W JSValue :=
  withErrorHandling (fun opts => endpoints_searchPostcode postcode opts).

Definition listFlows : M W JSValue :=
  withErrorHandling (fun opts => endpoints_listFlows opts).

Definition getFlow (id : string) : M W JSValue :=
  withErrorHandling (fun opts => endpoints_getFlow id opts).

Definition getArtefact (artefact_key : string) : M W JSValue :=
  withErrorHandling (fun opts => endpoints_getArtefact artefact_key opts).

Definition verifyEvisa (input : EvisaVerificationInput) : M W JSValue :=
  withErrorHandling (fun opts => endpoints_verifyEvisa input opts).

Definition verifySupportingDocument (input : VerifySupportingDocumentBody) : M W JSValue :=
  withErrorHandling (fun opts => endpoints_verifySupportingDocument input opts).

(** A caller that awaits one wrapped call after the other. *)
Fixpoint repeated_calls (fns : list Endpoint) : M W (list JSValue) :=
  match fns with
  | [] => ret []
  | fn :: rest =>
      let* d := withErrorHandling fn in
      let* ds := repeated_calls rest in
      ret (d :: ds)
  end.

End Client.

End FetchClient.

(** ** The client over the generated Api classes *)

Module ApiClient.

Section Client.

Variable W : Type.
Variable Date_now : W -> Z * W.
Variable Date_of : JSValue -> Date.
Variable ToString_other : JSValue -> string.

(** [this.authenticationApi.authenticate]: resolves to the decoded body,
    or rejects. *)
Variable authenticationApi_authenticate :
  AuthenticateInput -> W -> Outcome JSValue * W.

Definition ToString (v : JSValue) : string :=
  match v with
  | JStr s => s
  | _ => ToString_other v
  end.

Definition authBody_of (c : Client) : AuthenticateInput :=
  {| input_client_id := client_id (options c);
     input_client_secret := client_secret (options c) |}.

(** Both fields are read off the same value, so the second read cannot
    raise once the first one has not. *)
Definition getAccessToken : M W JSValue :=
  let* now := read_clock Date_now in
  let* this := get_client in
  if cache_valid this now then ret (token this)
  else
    let authBody := authBody_of this in
    let* response :=
      io (EvAuthenticate authBody) (authenticationApi_authenticate authBody) in
    let* access_token := get_prop response "access_token" in
    let* expires_at := get_prop response "expires_at" in
    modify_client (fun c => set_token c access_token (Date_of expires_at)) ;;;
    ret access_token.

(** [await err.response.json().catch(() => ({}))] *)
Definition read_body (response : FetchResponse) : JSValue :=
  match response_json response with
  | Some body => body
  | None => JObj []
  end.

(** [body?.message ?? err.response.statusText], as [Error] stores it. *)
Definition error_message (response : FetchResponse) : string :=
  ToString (coalesce (GetOptional (read_body response) "message")
                     (JStr (response_statusText response))).

(** The wrapped thunk [() => this.someApi.someCall(...)] is any
    computation: the generated classes hold the instance's
    [getAccessToken] through their [Configuration]. *)
Definition withErrorHandling (fn : M W JSValue) : M W JSValue :=
  try_catch fn
    (fun err =>
       match err with
       | ResponseError response =>
           if response_status response =? 401 then
             modify_client invalidate ;;;
             getAccessToken ;;;
             fn
           else
             throw (VouchsafeApiError (response_status response)
                                      (read_body response)
                                      (error_message response))
       | _ => throw err
       end).

(** *** Public methods *)

Variables Status RequestVerificationInput SmartLookupInput
          EvisaVerificationInput Document : Type.

Variable verificationsApi_getVerification : string -> M W JSValue.
Variable verificationsApi_listVerifications : option Status -> M W JSValue.
Variable verificationsApi_requestVerification : RequestVerificationInput -> M W JSValue.
Variable smartLookupsApi_performSmartLookup : SmartLookupInput -> M W JSValue.
Variable smartLookupsApi_searchPostcode : string -> M W JSValue.
Variable flowsApi_listFlows : M W JSValue.
Variable flowsApi_getFlow : string -> M W JSValue.
Variable artefactsApi_getArtefacts : string -> M W JSValue.
Variable eVisaVerificationApi_verifyEvisa : EvisaVerificationInput -> M W JSValue.
Variable supportingDocumentVerificationApi_verifySupportingDocument :
  Document -> string -> option string -> M W JSValue.

Definition getVerification (id : string) : M W JSValue :=
  withErrorHandling (verificationsApi_getVerification id).

Definition listVerifications (status : option Status) : M W JSValue :=
  withErrorHandling (verificationsApi_listVerifications status).

Definition requestVerification (input : RequestVerificationInput) : M W JSValue :=
  withErrorHandling (verificationsApi_requestVerification input).

Definition performSmartLookup (input : SmartLookupInput) : M W JSValue :=
  withErrorHandling (smartLookupsApi_performSmartLookup input).

Definition searchPostcode (postcode : string) : M W JSValue :=
  withErrorHandling (smartLookupsApi_searchPostcode postcode).

Definition listFlows : M W JSValue :=
  withErrorHandling (withErrorHandling flowsApi_listFlows).

Definition getFlow (id : string) : M W JSValue :=
  withErrorHandling (withErrorHandling (flowsApi_getFlow id)).

Definition getArtefact (artefact_key : string) : M W JSValue :=
  withErrorHandling (artefactsApi_getArtefacts artefact_key).

Definition verifyEvisa (input : EvisaVerificationInput) : M W JSValue :=
  withErrorHandling (eVisaVerificationApi_verifyEvisa input).

Definition verifySupportingDocument
    (document : Document) (sub_type : string)
    (minimum_document_length : option Z) : M W JSValue :=
  withErrorHandling
    (supportingDocumentVerificationApi_verifySupportingDocument
       document sub_type (option_map Number_toString minimum_document_length)).

End Client.

End ApiClient.

(** ** A scripted world, for running the clients on concrete inputs *)

Module Scripted.

(** The clock readings and the replies of the network, in the order in
    which they will be asked for. *)
Record Script : Type := {
  times : list Z;
  auth_replies : list (Outcome FetchClient.Response);
  replies : list (Outcome FetchClient.Response);
  api_auth_replies : list (Outcome JSValue);
  api_replies : list (Outcome JSValue)
}.

Definition fetch_failed : Thrown := OtherError "TypeError".

Definition Date_now (s : Script) : Z * Script :=
  match times s with
  | [] => (0, s)
  | t :: rest =>
      (t, {| times := rest; auth_replies := auth_replies s; replies := replies s;
             api_auth_replies := api_auth_replies s; api_replies := api_replies s |})
  end.

Definition authenticate (_ : AuthenticateInput) (s : Script)
  : Outcome FetchClient.Response * Script :=
  match auth_replies s with
  | [] => (Threw fetch_failed, s)
  | r :: rest =>
      (r, {| times := times s; auth_replies := rest; replies := replies s;
             api_auth_replies := api_auth_replies s; api_replies := api_replies s |})
  end.

Definition endpoint (_ : RequestInit) (s : Script)
  : Outcome FetchClient.Response * Script :=
  match replies s with
  | [] => (Threw fetch_failed, s)
  | r :: rest =>
      (r, {| times := times s; auth_replies := auth_replies s; replies := rest;
             api_auth_replies := api_auth_replies s; api_replies := api_replies s |})
  end.

Definition authenticationApi_authenticate (_ : AuthenticateInput) (s : Script)
  : Outcome JSValue * Script :=
  match api_auth_replies s with
  | [] => (Threw fetch_failed, s)
  | r :: rest =>
      (r, {| times := times s; auth_replies := auth_replies s; replies := replies s;
             api_auth_replies := rest; api_replies := api_replies s |})
  end.

Definition api_call (operation : string) : M Script JSValue :=
  io (EvApiCall operation)
     (fun s =>
        match api_replies s with
        | [] => (Threw fetch_failed, s)
        | r :: rest =>
            (r, {| times := times s; auth_replies := auth_replies s;
                   replies := replies s; api_auth_replies := api_auth_replies s;
                   api_replies := rest |})
        end).

(** [new Date(v)]: a number is a count of milliseconds, clipped to the
    range of time values; [null] and the booleans go through ToNumber;
    [undefined] gives the invalid date.  The scripts pass no text as a
    date: a string is read here as one that is not a date. *)
Definition Date_of (v : JSValue) : Date :=
  match v with
  | JNum n => if Z.abs n <=? 8640000000000000 then TimeValue n else InvalidDate
  | JNull | JBool false => TimeValue 0
  | JBool true => TimeValue 1
  | _ => InvalidDate
  end.

(** ToString on the primitives that are not strings.  The scripts build
    no text from an array or an object. *)
Definition ToString_other (v : JSValue) : string :=
  match v with
  | JUndefined => "undefined"
  | JNull => "null"
  | JBool true => "true"
  | JBool false => "false"
  | JNum n => Number_toString n
  | _ => "[object Object]"
  end.

Definition credentials : VouchsafeClientOptions :=
  {| client_id := "id"; client_secret := "secret" |}.

Definition initial (c : Client) (s : Script) : State Script :=
  {| client := c; world := s; trace := [] |}.

(** A world whose clock stands still, whose endpoints always give the
    same reply and whose [authenticate] is out of reach. *)
Definition steady_clock (t : Z) : unit -> Z * unit := fun w => (t, w).

Definition steady_endpoint (r : FetchClient.Response) : FetchClient.Endpoint unit :=
  fun _ w => (Returned r, w).

Definition offline (_ : AuthenticateInput) (w : unit)
  : Outcome FetchClient.Response * unit :=
  (Threw fetch_failed, w).

(** Replies used by the runs below. *)
Definition reply (s : Z) (d : JSValue) : Outcome FetchClient.Response :=
  Returned {| FetchClient.status := s; FetchClient.data := d |}.

Definition token_body (t : string) (expires_at : Z) : JSValue :=
  JObj [("access_token", JStr t); ("expires_at", JNum expires_at)].

Definition unauthorized : FetchResponse :=
  {| response_status := 401; response_statusText := "Unauthorized";
     response_json := Some (JObj [("message", JStr "Unauthorized")]) |}.

Definition script (ts : list Z) (auths rs : list (Outcome FetchClient.Response))
  : Script :=
  {| times := ts; auth_replies := auths; replies := rs;
     api_auth_replies := []; api_replies := [] |}.

Definition api_script (ts : list Z) (auths rs : list (Outcome JSValue)) : Script :=
  {| times := ts; auth_replies := []; replies := [];
     api_auth_replies := auths; api_replies := rs |}.

(** An instance that holds [t], due to expire at [e]. *)
Definition holding (t : string) (e : Z) : Client :=
  {| token := JStr t; tokenExpiry := Some (TimeValue e); options := credentials |}.

End Scripted.

(** ** The script that writes the index of the models *)

Module ModelExports.

Local Open Scope nat_scope.
Local Open Scope list_scope.

(** A JavaScript string is its sequence of UTF-16 code units. *)
Definition JSString : Type := list N.

(** The code units of a text that is written in ASCII. *)
Definition units (s : string) : JSString :=
  map Ascii.N_of_ascii (list_ascii_of_string s).

Definition newline : JSString := [10%N].

Fixpoint JSString_eqb (a b : JSString) : bool :=
  match a, b with
  | [], [] => true
  | x :: a', y :: b' => (x =? y)%N && JSString_eqb a' b'
  | _, _ => false
  end.

(** Does [pat] stand at the start of [s]? *)
Fixpoint startsWith (s pat : JSString) {struct pat} : bool :=
  match pat, s with
  | [], _ => true
  | p :: pat', c :: s' => (c =? p)%N && startsWith s' pat'
  | _ :: _, [] => false
  end.

(** [s.endsWith(pat)]: the last [pat.length] code units of [s], when
    there are that many, are those of [pat]. *)
Definition endsWith (s pat : JSString) : bool :=
  (length pat <=? length s)
  && JSString_eqb (skipn (length s - length pat) s) pat.

(** [s.indexOf(pat)]: the first position at which [pat] stands. *)
Fixpoint indexOf (s pat : JSString) : option nat :=
  if startsWith s pat then Some 0
  else match s with
       | [] => None
       | _ :: s' => option_map S (indexOf s' pat)
       end.

(** [s.replace(pat, rep)] for a pattern that is a string and a
    replacement without a dollar sign: the first occurrence is replaced. *)
Definition replace (s pat rep : JSString) : JSString :=
  match indexOf s pat with
  | None => s
  | Some pos => firstn pos s ++ rep ++ skipn (pos + length pat) s
  end.

(** [a < b] on strings: the order of the code units, a proper prefix
    coming first. *)
Fixpoint lt (a b : JSString) : bool :=
  match a, b with
  | _, [] => false
  | [], _ :: _ => true
  | x :: a', y :: b' => (x <? y)%N || ((x =? y)%N && lt a' b')
  end.

(** [a] does not come after [b]. *)
Definition le (a b : JSString) : Prop := lt b a = false.

(** [l.sort()] on an array of strings.  The order above is total, so the
    result is the one sorted arrangement of [l], whichever algorithm the
    engine runs; it is computed here by insertion. *)
Fixpoint insert (x : JSString) (l : list JSString) : list JSString :=
  match l with
  | [] => [x]
  | y :: rest => if lt x y then x :: y :: rest else y :: insert x rest
  end.

Fixpoint sort (l : list JSString) : list JSString :=
  match l with
  | [] => []
  | x :: rest => insert x (sort rest)
  end.

(** [l.join(sep)] *)
Fixpoint join (sep : JSString) (l : list JSString) : JSString :=
  match l with
  | [] => []
  | [x] => x
  | x :: rest => x ++ sep ++ join sep rest
  end.

(** [file.endsWith('.ts') && file !== 'index.ts'] *)
Definition is_model_file (file : JSString) : bool :=
  endsWith file (units ".ts") && negb (JSString_eqb file (units "index.ts")).

(** [files], from the listing of the models folder. *)
Definition files (listing : list JSString) : list JSString :=
  sort (map (fun file => replace file (units ".ts") [])
            (filter is_model_file listing)).

(** [`export * from './${file}';`] *)
Definition export_statement (file : JSString) : JSString :=
  units "export * from './" ++ file ++ units "';".

Definition exportStatements (listing : list JSString) : JSString :=
  join newline (map export_statement (files listing)).

(** The text written to [index.ts]. *)
Definition content (listing : list JSString) : JSString :=
  units "/* tslint:disable */" ++ newline
  ++ units "/* eslint-disable */" ++ newline
  ++ units "// This file is auto-generated. Do not edit manually." ++ newline
  ++ exportStatements listing ++ newline.

End ModelExports.

(** ** The words of the specification *)

(** A token is cached and its expiry lies more than the buffer window
    after [now]. *)
Definition token_valid_at (c : Client) (now : Z) : Prop :=
  truthy (token c) = true /\
  exists e, tokenExpiry c = Some (TimeValue e) /\ now + bufferMs < e.

(** No token is cached, or the cached one expires within the buffer
    window (or carries a date that cannot be read). *)
Definition refresh_required (c : Client) (now : Z) : Prop :=
  truthy (token c) = false \/
  tokenExpiry c = None \/
  tokenExpiry c = Some InvalidDate \/
  exists e, tokenExpiry c = Some (TimeValue e) /\ e <= now + bufferMs.

(** Nothing is cached on the instance. *)
Definition cache_empty (c : Client) : Prop :=
  token c = JUndefined /\ tokenExpiry c = None.

(** The two fields go together: both empty, or a truthy token beside
    some date. *)
Definition cache_consistent (c : Client) : Prop :=
  (token c = JUndefined /\ tokenExpiry c = None)
  \/ (truthy (token c) = true /\ exists d, tokenExpiry c = Some d).

(** A computation that, however it ends, adds to the log at most
    [requests] requests and at most [auths] [authenticate] calls. *)
Definition logs_at_most {W A : Type} (m : M W A) (requests auths : nat) : Prop :=
  forall (st st' : State W) (out : Outcome A),
    m st = (out, st') ->
    exists added,
      trace st' = (trace st ++ added)%list
      /\ (request_calls added <= requests)%nat
      /\ (authenticate_calls added <= auths)%nat.

Definition bearer (t : string) : RequestInit :=
  {| headers_Authorization := "Bearer " ++ t |}.

(** * Properties *)

Lemma bufferMs_value : bufferMs = 300000.
Proof. reflexivity. Qed.

Lemma token_valid_at_iff (c : Client) (now : Z) :
  token_valid_at c now <-> cache_valid c now = true.
Proof.
  unfold token_valid_at, cache_valid, before_minus.
  split.
  - intros [Ht [e [He Hlt]]]. rewrite Ht, He. simpl.
    apply Z.ltb_lt. lia.
  - intros H. apply andb_true_iff in H. destruct H as [Ht Hd].
    split; [exact Ht|].
    destruct (tokenExpiry c) as [[e|]|]; try discriminate.
    exists e. split; [reflexivity|]. apply Z.ltb_lt in Hd. lia.
Qed.

Lemma refresh_required_iff (c : Client) (now : Z) :
  refresh_required c now <-> cache_valid c now = false.
Proof.
  unfold refresh_required, cache_valid, before_minus.
  split.
  - intros [Ht | [Hn | [Hi | [e [He Hle]]]]].
    + rewrite Ht. reflexivity.
    + rewrite Hn. apply andb_false_r.
    + rewrite Hi. apply andb_false_r.
    + rewrite He. apply andb_false_iff. right. apply Z.ltb_ge. lia.
  - intros H. apply andb_false_iff in H. destruct H as [Ht | Hd].
    + left. exact Ht.
    + right. destruct (tokenExpiry c) as [[e|]|].
      * right. right. exists e. split; [reflexivity|].
        apply Z.ltb_ge in Hd. lia.
      * right. left. reflexivity.
      * left. reflexivity.
Qed.

Lemma invalidate_refresh_required (c : Client) (now : Z) :
  cache_valid (invalidate c) now = false.
Proof. reflexivity. Qed.

Module FetchClientFacts.

Import FetchClient.

Section Facts.

Context {W : Type}.
Variable Date_now : W -> Z * W.
Variable Date_of : JSValue -> Date.
Variable ToString_other : JSValue -> string.
Variable authenticate : AuthenticateInput -> W -> Outcome Response * W.

Local Abbreviation getAccessToken :=
  (FetchClient.getAccessToken W Date_now Date_of authenticate).
Local Abbreviation authHeaders :=
  (FetchClient.authHeaders W Date_now Date_of ToString_other authenticate).
Local Abbreviation attempt :=
  (FetchClient.attempt W Date_now Date_of ToString_other authenticate).
Local Abbreviation withErrorHandling :=
  (FetchClient.withErrorHandling W Date_now Date_of ToString_other authenticate).
Local Abbreviation repeated_calls :=
  (FetchClient.repeated_calls W Date_now Date_of ToString_other authenticate).
Local Abbreviation ToString := (FetchClient.ToString ToString_other).
Local Abbreviation error_message := (FetchClient.error_message ToString_other).

Ltac unfold_monad :=
  unfold bind, try_catch, read_clock, get_client, modify_client, io,
    get_prop, ret, throw; simpl.

(** A cache hit: no network call, nothing written. *)
Lemma getAccessToken_hit (c : Client) (w w' : W) (tr : list Event) (now : Z) :
  Date_now w = (now, w') ->
  cache_valid c now = true ->
  getAccessToken {| client := c; world := w; trace := tr |}
  = (Returned (token c), {| client := c; world := w'; trace := tr |}).
Proof.
  intros Hnow Hvalid.
  unfold FetchClient.getAccessToken. unfold_monad.
  rewrite Hnow. simpl. rewrite Hvalid. reflexivity.
Qed.

(** The refresh path when [authenticate] itself rejects. *)
Lemma getAccessToken_rejected (c : Client) (w w1 w2 : W) (tr : list Event)
      (now : Z) (e : Thrown) :
  Date_now w = (now, w1) ->
  cache_valid c now = false ->
  authenticate (authBody_of c) w1 = (Threw e, w2) ->
  getAccessToken {| client := c; world := w; trace := tr |}
  = (Threw e, {| client := c; world := w2;
                 trace := tr ++ [EvAuthenticate (authBody_of c)] |}).
Proof.
  intros Hnow Hvalid Hauth.
  unfold FetchClient.getAccessToken. unfold_monad.
  rewrite Hnow. simpl. rewrite Hvalid. simpl. rewrite Hauth. reflexivity.
Qed.

(** The refresh path on a reply whose status is not 201. *)
Lemma getAccessToken_bad_status (c : Client) (w w1 w2 : W) (tr : list Event)
      (now : Z) (a : Response) :
  Date_now w = (now, w1) ->
  cache_valid c now = false ->
  authenticate (authBody_of c) w1 = (Returned a, w2) ->
  status a <> 201 ->
  getAccessToken {| client := c; world := w; trace := tr |}
  = (Threw (VouchsafeApiError (status a) (data a) "Authentication failed"),
     {| client := c; world := w2;
        trace := tr ++ [EvAuthenticate (authBody_of c)] |}).
Proof.
  intros Hnow Hvalid Hauth Hstatus.
  unfold FetchClient.getAccessToken. unfold_monad.
  rewrite Hnow. simpl. rewrite Hvalid. simpl. rewrite Hauth.
  apply Z.eqb_neq in Hstatus. rewrite Hstatus. reflexivity.
Qed.

(** The refresh path on a 201 reply that carries both fields. *)
Lemma getAccessToken_stored (c : Client) (w w1 w2 : W) (tr : list Event)
      (now : Z) (a : Response) (tok exp : JSValue) :
  Date_now w = (now, w1) ->
  cache_valid c now = false ->
  authenticate (authBody_of c) w1 = (Returned a, w2) ->
  status a = 201 ->
  Get (data a) "access_token" = Some tok -> truthy tok = true ->
  Get (data a) "expires_at" = Some exp -> truthy exp = true ->
  getAccessToken {| client := c; world := w; trace := tr |}
  = (Returned tok,
     {| client := set_token c tok (Date_of exp); world := w2;
        trace := tr ++ [EvAuthenticate (authBody_of c)] |}).
Proof.
  intros Hnow Hvalid Hauth Hstatus Htok Htt Hexp Het.
  unfold FetchClient.getAccessToken. unfold_monad.
  rewrite Hnow. simpl. rewrite Hvalid. simpl. rewrite Hauth.
  rewrite Hstatus. simpl. rewrite Htok. simpl. rewrite Htt. simpl.
  rewrite Hexp. simpl. rewrite Het. reflexivity.
Qed.

(** The refresh path on a 201 reply one of whose fields is falsy. *)
Lemma getAccessToken_incomplete (c : Client) (w w1 w2 : W) (tr : list Event)
      (now : Z) (a : Response) (tok exp : JSValue) :
  Date_now w = (now, w1) ->
  cache_valid c now = false ->
  authenticate (authBody_of c) w1 = (Returned a, w2) ->
  status a = 201 ->
  Get (data a) "access_token" = Some tok ->
  Get (data a) "expires_at" = Some exp ->
  truthy tok = false \/ truthy exp = false ->
  getAccessToken {| client := c; world := w; trace := tr |}
  = (Threw (VouchsafeApiError 201 (data a)
              "Authentication response missing token or expiry"),
     {| client := c; world := w2;
        trace := tr ++ [EvAuthenticate (authBody_of c)] |}).
Proof.
  intros Hnow Hvalid Hauth Hstatus Htok Hexp Hfalsy.
  unfold FetchClient.getAccessToken. unfold_monad.
  rewrite Hnow. simpl. rewrite Hvalid. simpl. rewrite Hauth.
  rewrite Hstatus. simpl. rewrite Htok. simpl.
  destruct (truthy tok) eqn:Htt; simpl.
  - rewrite Hexp. simpl. destruct Hfalsy as [Hf|Hf]; [discriminate|].
    rewrite Hf. reflexivity.
  - reflexivity.
Qed.

(** [authHeaders] puts the ensured token behind the word Bearer. *)
Lemma authHeaders_eq (st : State W) :
  authHeaders st
  = match getAccessToken st with
    | (Returned t, st') => (Returned (bearer (ToString t)), st')
    | (Threw e, st') => (Threw e, st')
    end.
Proof.
  unfold FetchClient.authHeaders. unfold_monad.
  destruct (getAccessToken st) as [[t|e] st']; reflexivity.
Qed.

(** One attempt, once the headers are there. *)
Lemma attempt_eq (fn : Endpoint W) (st st1 : State W) (opts : RequestInit)
      (r : Outcome Response) (w2 : W) :
  authHeaders st = (Returned opts, st1) ->
  fn opts (world st1) = (r, w2) ->
  attempt fn st
  = (match r with
     | Returned response =>
         if is_success (status response) then Returned (data response)
         else Threw (VouchsafeApiError (status response) (data response)
                                       (error_message response))
     | Threw e => Threw e
     end,
     {| client := client st1; world := w2;
        trace := trace st1 ++ [EvRequest opts] |}).
Proof.
  intros Hh Hfn.
  unfold FetchClient.attempt. unfold_monad.
  rewrite Hh. rewrite Hfn.
  destruct r as [response|e]; [|reflexivity].
  destruct (is_success (status response)); reflexivity.
Qed.

(** An attempt that cannot get its headers does not call the endpoint. *)
Lemma attempt_no_headers (fn : Endpoint W) (st st1 : State W) (e : Thrown) :
  authHeaders st = (Threw e, st1) ->
  attempt fn st = (Threw e, st1).
Proof.
  intros Hh. unfold FetchClient.attempt. unfold_monad.
  rewrite Hh. reflexivity.
Qed.

(** What the catch block does with the error of the first attempt. *)
Lemma withErrorHandling_eq (fn : Endpoint W) (st : State W) :
  withErrorHandling fn st
  = match attempt fn st with
    | (Returned d, st') => (Returned d, st')
    | (Threw (VouchsafeApiError statusCode body msg), st') =>
        if statusCode =? 401 then
          attempt fn {| client := invalidate (client st'); world := world st';
                        trace := trace st' |}
        else (Threw (VouchsafeApiError statusCode body msg), st')
    | (Threw e, st') => (Threw e, st')
    end.
Proof.
  unfold FetchClient.withErrorHandling. unfold_monad.
  destruct (attempt fn st) as [[d|e] st']; [reflexivity|].
  destruct e as [statusCode body msg|response|name]; try reflexivity.
  destruct (statusCode =? 401); reflexivity.
Qed.

(** A first invocation answered with 401 hands over to a second attempt
    on the emptied cache; that attempt's outcome is the caller's. *)
Lemma withErrorHandling_401 (fn : Endpoint W) (st st1 : State W)
      (opts : RequestInit) (r1 : Response) (w2 : W) :
  authHeaders st = (Returned opts, st1) ->
  fn opts (world st1) = (Returned r1, w2) ->
  status r1 = 401 ->
  withErrorHandling fn st
  = attempt fn {| client := invalidate (client st1); world := w2;
                  trace := trace st1 ++ [EvRequest opts] |}.
Proof.
  intros Hh Hfn H401.
  rewrite withErrorHandling_eq.
  rewrite (attempt_eq fn st st1 opts (Returned r1) w2 Hh Hfn).
  rewrite H401. reflexivity.
Qed.

(** A first invocation answered with another failure status is final. *)
Lemma withErrorHandling_failure (fn : Endpoint W) (st st1 : State W)
      (opts : RequestInit) (r : Response) (w2 : W) :
  authHeaders st = (Returned opts, st1) ->
  fn opts (world st1) = (Returned r, w2) ->
  is_success (status r) = false ->
  status r <> 401 ->
  withErrorHandling fn st
  = (Threw (VouchsafeApiError (status r) (data r) (error_message r)),
     {| client := client st1; world := w2;
        trace := trace st1 ++ [EvRequest opts] |}).
Proof.
  intros Hh Hfn Hfail Hne.
  rewrite withErrorHandling_eq.
  rewrite (attempt_eq fn st st1 opts (Returned r) w2 Hh Hfn).
  rewrite Hfail. apply Z.eqb_neq in Hne. rewrite Hne. reflexivity.
Qed.

(** A successful first invocation returns the payload. *)
Lemma withErrorHandling_success (fn : Endpoint W) (st st1 : State W)
      (opts : RequestInit) (r : Response) (w2 : W) :
  authHeaders st = (Returned opts, st1) ->
  fn opts (world st1) = (Returned r, w2) ->
  is_success (status r) = true ->
  withErrorHandling fn st
  = (Returned (data r),
     {| client := client st1; world := w2;
        trace := trace st1 ++ [EvRequest opts] |}).
Proof.
  intros Hh Hfn Hok.
  rewrite withErrorHandling_eq.
  rewrite (attempt_eq fn st st1 opts (Returned r) w2 Hh Hfn).
  rewrite Hok. reflexivity.
Qed.

(** The message of the typed error: the body's [message] when it is a
    string, the generic sentence when there is none. *)
Lemma error_message_present (r : Response) (m : string) :
  GetOptional (data r) "message" = JStr m ->
  error_message r = m.
Proof.
  intros H. unfold FetchClient.error_message. rewrite H. reflexivity.
Qed.

Lemma error_message_absent (r : Response) :
  nullish (GetOptional (data r) "message") = true ->
  error_message r = "Request failed with status " ++ Number_toString (status r).
Proof.
  intros H. unfold FetchClient.error_message, coalesce. rewrite H. reflexivity.
Qed.

Lemma authenticate_calls_app (l1 l2 : list Event) :
  authenticate_calls (l1 ++ l2) = (authenticate_calls l1 + authenticate_calls l2)%nat.
Proof.
  unfold authenticate_calls. rewrite filter_app, length_app. reflexivity.
Qed.

Lemma authenticate_calls_requests (o : RequestInit) (n : nat) :
  authenticate_calls (repeat (EvRequest o) n) = 0%nat.
Proof.
  induction n as [|n IH]; [reflexivity|]. simpl. exact IH.
Qed.

(** C3. A cached token whose expiry lies more than five minutes ahead is
    returned as it is: [getAccessToken] makes no [authenticate] call and
    writes nothing to the instance.  Hence a caller that awaits any number
    of wrapped calls, each answered with 200 or 201 while the clock stays
    inside that window, finds the instance unchanged and only requests in
    the log, all of them under the cached token. *)
Theorem cached_token_reused :
  (forall (c : Client) (w w' : W) (tr : list Event) (now : Z),
      Date_now w = (now, w') ->
      token_valid_at c now ->
      getAccessToken {| client := c; world := w; trace := tr |}
      = (Returned (token c), {| client := c; world := w'; trace := tr |}))
  /\
  (forall (Inv : W -> Prop) (fns : list (Endpoint W))
          (c : Client) (w : W) (tr : list Event),
      Inv w ->
      (forall w0, Inv w0 ->
         token_valid_at c (fst (Date_now w0)) /\ Inv (snd (Date_now w0))) ->
      Forall (fun fn : Endpoint W =>
                forall opts w0, Inv w0 ->
                  exists r w1, fn opts w0 = (Returned r, w1)
                               /\ is_success (status r) = true /\ Inv w1) fns ->
      exists ds w',
        repeated_calls fns {| client := c; world := w; trace := tr |}
        = (Returned ds,
           {| client := c; world := w';
              trace := tr ++ repeat (EvRequest (bearer (ToString (token c))))
                                    (length fns) |})
        /\ length ds = length fns
        /\ authenticate_calls
             (tr ++ repeat (EvRequest (bearer (ToString (token c)))) (length fns))%list
           = authenticate_calls tr).
Proof.
  split.
  - intros c w w' tr now Hnow Hvalid.
    apply getAccessToken_hit with (now := now); [exact Hnow|].
    apply token_valid_at_iff. exact Hvalid.
  - intros Inv fns c w tr Hinv Hclock Hfns.
    revert w tr Hinv.
    induction Hfns as [|fn rest Hfn _ IH]; intros w tr Hinv.
    + exists [], w. simpl. rewrite app_nil_r. auto.
    + destruct (Hclock w Hinv) as [Hvalid Hinv1].
      destruct (Date_now w) as [now w1] eqn:Hnow. simpl in Hvalid, Hinv1.
      set (opts := bearer (ToString (token c))).
      destruct (Hfn opts w1 Hinv1) as [r [w2 [Hcall [Hok Hinv2]]]].
      destruct (IH w2 (tr ++ [EvRequest opts])%list Hinv2)
        as [ds [w' [Hrest [Hlen _]]]].
      exists (data r :: ds), w'.
      assert (Hh : authHeaders {| client := c; world := w; trace := tr |}
                   = (Returned opts,
                      {| client := c; world := w1; trace := tr |})).
      { rewrite authHeaders_eq.
        rewrite (getAccessToken_hit c w w1 tr now Hnow);
          [reflexivity | apply token_valid_at_iff; exact Hvalid]. }
      split; [|split].
      * simpl. unfold bind at 1.
        rewrite (withErrorHandling_success fn _ _ opts r w2 Hh Hcall Hok).
        simpl. unfold bind at 1. rewrite Hrest. unfold ret.
        rewrite <- app_assoc. reflexivity.
      * simpl. rewrite Hlen. reflexivity.
      * rewrite authenticate_calls_app, authenticate_calls_requests. lia.
Qed.

(** C4. When no token is cached, or the cached one expires within five
    minutes, [getAccessToken] calls [authenticate] exactly once, with the
    stored credentials; when the reply is a 201 that carries [access_token]
    and [expires_at], both are stored on the instance and the new token is
    returned. *)
Theorem refresh_authenticates_once
        (c : Client) (w w1 w2 : W) (tr : list Event) (now : Z)
        (r : Outcome Response) :
  Date_now w = (now, w1) ->
  refresh_required c now ->
  authenticate (authBody_of c) w1 = (r, w2) ->
  exists out c',
    getAccessToken {| client := c; world := w; trace := tr |}
    = (out, {| client := c'; world := w2;
               trace := tr ++ [EvAuthenticate
                                 {| input_client_id := client_id (options c);
                                    input_client_secret := client_secret (options c) |}] |})
    /\ forall a tok exp,
        r = Returned a -> status a = 201 ->
        Get (data a) "access_token" = Some tok -> truthy tok = true ->
        Get (data a) "expires_at" = Some exp -> truthy exp = true ->
        out = Returned tok
        /\ token c' = tok /\ tokenExpiry c' = Some (Date_of exp)
        /\ options c' = options c.
Proof.
  intros Hnow Hreq Hauth.
  apply refresh_required_iff in Hreq.
  destruct r as [a|e].
  - destruct (Z.eq_dec (status a) 201) as [H201|Hne].
    + destruct (Get (data a) "access_token") as [tok|] eqn:Htok.
      * destruct (Get (data a) "expires_at") as [exp|] eqn:Hexp.
        -- destruct (truthy tok) eqn:Htt; [destruct (truthy exp) eqn:Het|].
           ++ exists (Returned tok), (set_token c tok (Date_of exp)).
              split.
              ** apply (getAccessToken_stored c w w1 w2 tr now a tok exp); assumption.
              ** intros a' tok' exp' Ha _ Htok' _ Hexp' _.
                 injection Ha as <-. rewrite Htok in Htok'. rewrite Hexp in Hexp'.
                 injection Htok' as <-. injection Hexp' as <-.
                 repeat split; reflexivity.
           ++ eexists; exists c. split.
              ** apply (getAccessToken_incomplete c w w1 w2 tr now a tok exp); auto.
              ** intros a' tok' exp' Ha _ _ _ Hexp' Het'.
                 injection Ha as <-. rewrite Hexp in Hexp'. injection Hexp' as <-.
                 congruence.
           ++ eexists; exists c. split.
              ** apply (getAccessToken_incomplete c w w1 w2 tr now a tok exp); auto.
              ** intros a' tok' exp' Ha _ Htok' Htt' _ _.
                 injection Ha as <-. rewrite Htok in Htok'. injection Htok' as <-.
                 congruence.
        -- exfalso. destruct (data a); simpl in *; discriminate.
      * exists (Threw TypeError), c. split.
        -- unfold FetchClient.getAccessToken. unfold_monad.
           rewrite Hnow. simpl. rewrite Hreq. simpl. rewrite Hauth.
           rewrite H201. simpl. rewrite Htok. reflexivity.
        -- intros a' tok' exp' Ha _ Htok' _ _ _.
           injection Ha as <-. congruence.
    + eexists; exists c. split.
      * apply (getAccessToken_bad_status c w w1 w2 tr now a); assumption.
      * intros a' tok' exp' Ha H201. injection Ha as <-. contradiction.
  - exists (Threw e), c. split.
    + apply (getAccessToken_rejected c w w1 w2 tr now e); assumption.
    + intros a' tok' exp' Ha. discriminate.
Qed.

(** C5, as amended.  When a refresh is required and [authenticate] answers
    with a status other than 201, [getAccessToken] throws the typed error
    that carries this status and body under the message
    "Authentication failed", and the fields of the instance are what they
    were: an empty cache stays empty, a stale token stays stored. *)
Theorem failed_authentication_keeps_cache
        (c : Client) (w w1 w2 : W) (tr : list Event) (now : Z) (a : Response) :
  Date_now w = (now, w1) ->
  refresh_required c now ->
  authenticate (authBody_of c) w1 = (Returned a, w2) ->
  status a <> 201 ->
  exists st',
    getAccessToken {| client := c; world := w; trace := tr |}
    = (Threw (VouchsafeApiError (status a) (data a) "Authentication failed"), st')
    /\ client st' = c
    /\ (cache_empty c -> cache_empty (client st')).
Proof.
  intros Hnow Hreq Hauth Hne.
  apply refresh_required_iff in Hreq.
  eexists. split; [|split].
  - apply (getAccessToken_bad_status c w w1 w2 tr now a); assumption.
  - reflexivity.
  - intros H. exact H.
Qed.

(** The fetch client on a reply with a success status whose body is an
    object that lacks [access_token] or [expires_at]: the typed error is
    thrown and nothing is cached. *)
Lemma incomplete_reply_rejected
      (c : Client) (w w1 w2 : W) (tr : list Event) (now : Z) (a : Response)
      (fields : list (string * JSValue)) :
  Date_now w = (now, w1) ->
  refresh_required c now ->
  authenticate (authBody_of c) w1 = (Returned a, w2) ->
  is_success (status a) = true ->
  data a = JObj fields ->
  own_property "access_token" fields = JUndefined
  \/ own_property "expires_at" fields = JUndefined ->
  exists statusCode msg,
    getAccessToken {| client := c; world := w; trace := tr |}
    = (Threw (VouchsafeApiError statusCode (data a) msg),
       {| client := c; world := w2;
          trace := tr ++ [EvAuthenticate (authBody_of c)] |}).
Proof.
  intros Hnow Hreq Hauth Hok Hdata Hmiss.
  apply refresh_required_iff in Hreq.
  destruct (Z.eq_dec (status a) 201) as [H201|Hne].
  - exists 201, "Authentication response missing token or expiry".
    apply (getAccessToken_incomplete c w w1 w2 tr now a
             (own_property "access_token" fields)
             (own_property "expires_at" fields)); try assumption.
    + rewrite Hdata. reflexivity.
    + rewrite Hdata. reflexivity.
    + destruct Hmiss as [H|H]; rewrite H; auto.
  - exists (status a), "Authentication failed".
    apply (getAccessToken_bad_status c w w1 w2 tr now a); assumption.
Qed.

(** C10. A 201 reply whose [access_token] or [expires_at] is falsy (the
    empty string, say) is treated like a missing field: [getAccessToken]
    throws, and the error's status code is 201.  Inside a wrapped call
    this error is not taken for a 401: it reaches the caller after the one
    [authenticate] call, without any invocation of the endpoint. *)
Theorem falsy_field_reports_201
        (c : Client) (w w1 w2 : W) (tr : list Event) (now : Z) (a : Response)
        (tok exp : JSValue) (fn : Endpoint W) :
  Date_now w = (now, w1) ->
  refresh_required c now ->
  authenticate (authBody_of c) w1 = (Returned a, w2) ->
  status a = 201 ->
  Get (data a) "access_token" = Some tok ->
  Get (data a) "expires_at" = Some exp ->
  truthy tok = false \/ truthy exp = false ->
  let err := VouchsafeApiError 201 (data a)
               "Authentication response missing token or expiry" in
  let st' := {| client := c; world := w2;
                trace := tr ++ [EvAuthenticate (authBody_of c)] |} in
  getAccessToken {| client := c; world := w; trace := tr |} = (Threw err, st')
  /\ withErrorHandling fn {| client := c; world := w; trace := tr |}
     = (Threw err, st').
Proof.
  intros Hnow Hreq Hauth H201 Htok Hexp Hfalsy err st'.
  apply refresh_required_iff in Hreq.
  assert (Hget : getAccessToken {| client := c; world := w; trace := tr |}
                 = (Threw err, st')).
  { apply (getAccessToken_incomplete c w w1 w2 tr now a tok exp); assumption. }
  split; [exact Hget|].
  rewrite withErrorHandling_eq.
  rewrite (attempt_no_headers fn _ st' err).
  - reflexivity.
  - rewrite authHeaders_eq, Hget. reflexivity.
Qed.

Lemma request_calls_app (l1 l2 : list Event) :
  request_calls (l1 ++ l2) = (request_calls l1 + request_calls l2)%nat.
Proof.
  unfold request_calls. rewrite filter_app, length_app. reflexivity.
Qed.

(** [getAccessToken] sends at most one message, an [authenticate] call. *)
Lemma getAccessToken_trace (st st1 : State W) (out : Outcome JSValue) :
  getAccessToken st = (out, st1) ->
  trace st1 = trace st
  \/ trace st1 = (trace st ++ [EvAuthenticate (authBody_of (client st))])%list.
Proof.
  destruct st as [c w tr].
  unfold FetchClient.getAccessToken. unfold_monad.
  destruct (Date_now w) as [now w1]. simpl.
  destruct (cache_valid c now); simpl.
  - intros H. injection H as _ <-. left. reflexivity.
  - destruct (authenticate (authBody_of c) w1) as [[a|e] w2].
    + destruct (status a =? 201); simpl.
      * destruct (Get (data a) "access_token") as [tok|]; simpl.
        -- destruct (truthy tok); simpl.
           ++ destruct (Get (data a) "expires_at") as [exp|]; simpl.
              ** destruct (truthy exp); simpl;
                   intros H; injection H as _ <-; right; reflexivity.
              ** intros H; injection H as _ <-; right; reflexivity.
           ++ intros H; injection H as _ <-; right; reflexivity.
        -- intros H; injection H as _ <-; right; reflexivity.
      * intros H; injection H as _ <-; right; reflexivity.
    + intros H; injection H as _ <-; right; reflexivity.
Qed.

(** Building the headers invokes no endpoint. *)
Lemma authHeaders_sends_no_request (st st1 : State W) (out : Outcome RequestInit) :
  authHeaders st = (out, st1) ->
  request_calls (trace st1) = request_calls (trace st).
Proof.
  rewrite authHeaders_eq.
  destruct (getAccessToken st) as [o st'] eqn:Hget.
  intros H.
  assert (Hst : st1 = st') by (destruct o; injection H as _ <-; reflexivity).
  subst st1.
  destruct (getAccessToken_trace st st' o Hget) as [Ht|Ht]; rewrite Ht.
  - reflexivity.
  - unfold request_calls. rewrite filter_app, length_app. simpl. lia.
Qed.


(** The refresh path on a 201 reply without a body: the read of
    [access_token] raises. *)
Lemma getAccessToken_no_body (c : Client) (w w1 w2 : W) (tr : list Event)
      (now : Z) (a : Response) :
  Date_now w = (now, w1) ->
  cache_valid c now = false ->
  authenticate (authBody_of c) w1 = (Returned a, w2) ->
  status a = 201 ->
  Get (data a) "access_token" = None ->
  getAccessToken {| client := c; world := w; trace := tr |}
  = (Threw TypeError,
     {| client := c; world := w2;
        trace := tr ++ [EvAuthenticate (authBody_of c)] |}).
Proof.
  intros Hnow Hvalid Hauth Hstatus Htok.
  unfold FetchClient.getAccessToken. unfold_monad.
  rewrite Hnow. simpl. rewrite Hvalid. simpl. rewrite Hauth.
  rewrite Hstatus. simpl. rewrite Htok. reflexivity.
Qed.

(** C1, as amended.  Let the first invocation of the wrapped call be
    answered with 401.  The cache is emptied once and one [authenticate]
    call follows.  If that call returns a 201 with both fields, the wrapped
    call is invoked once more under the new token and its outcome is the
    caller's: the payload on 200 or 201, the typed error of the second
    reply on any other status, 401 included, and nothing is invoked a
    third time.  In every other case the re-acquisition fails, be it that
    [authenticate] rejects, that it answers with another status, or that
    its 201 reply has no body or lacks a truthy [access_token] or
    [expires_at]: the caller then receives the very error that
    [getAccessToken] throws, the wrapped call is not invoked again, and
    the cache is left empty. *)
Theorem unauthorized_retried_once
        (fn : Endpoint W) (st st1 : State W) (opts1 : RequestInit)
        (r1 : Response) (w2 w3 w4 : W) (now : Z) (a : Outcome Response) :
  authHeaders st = (Returned opts1, st1) ->
  fn opts1 (world st1) = (Returned r1, w2) ->
  status r1 = 401 ->
  Date_now w2 = (now, w3) ->
  authenticate (authBody_of (client st1)) w3 = (a, w4) ->
  let sent := (trace st1 ++ [EvRequest opts1]
                 ++ [EvAuthenticate (authBody_of (client st1))])%list in
  (forall auth tok exp,
      a = Returned auth -> status auth = 201 ->
      Get (data auth) "access_token" = Some tok -> truthy tok = true ->
      Get (data auth) "expires_at" = Some exp -> truthy exp = true ->
      forall r2 w5,
        fn (bearer (ToString tok)) w4 = (r2, w5) ->
        withErrorHandling fn st
        = (match r2 with
           | Returned response =>
               if is_success (status response) then Returned (data response)
               else Threw (VouchsafeApiError (status response) (data response)
                                             (error_message response))
           | Threw e => Threw e
           end,
           {| client := set_token (client st1) tok (Date_of exp);
              world := w5;
              trace := sent ++ [EvRequest (bearer (ToString tok))] |}))
  /\
  ((forall auth tok exp,
       a = Returned auth -> status auth = 201 ->
       Get (data auth) "access_token" = Some tok -> truthy tok = true ->
       Get (data auth) "expires_at" = Some exp -> truthy exp = true ->
       False) ->
   let e :=
     match a with
     | Threw rejection => rejection
     | Returned auth =>
         if status auth =? 201 then
           match Get (data auth) "access_token" with
           | Some _ =>
               VouchsafeApiError 201 (data auth)
                 "Authentication response missing token or expiry"
           | None => TypeError
           end
         else VouchsafeApiError (status auth) (data auth) "Authentication failed"
     end in
   let failed := {| client := invalidate (client st1); world := w4;
                    trace := sent |} in
   getAccessToken {| client := invalidate (client st1); world := w2;
                     trace := trace st1 ++ [EvRequest opts1] |}
   = (Threw e, failed)
   /\ withErrorHandling fn st = (Threw e, failed)
   /\ cache_empty (invalidate (client st1))
   /\ request_calls sent = S (request_calls (trace st1))).
Proof.
  intros Hh Hfn H401 Hnow Hauth sent.
  rewrite (withErrorHandling_401 fn st st1 opts1 r1 w2 Hh Hfn H401).
  assert (Hmiss : cache_valid (invalidate (client st1)) now = false)
    by reflexivity.
  assert (Hsent : ((trace st1 ++ [EvRequest opts1])
                     ++ [EvAuthenticate (authBody_of (invalidate (client st1)))])%list
                  = sent).
  { unfold sent. rewrite <- app_assoc. reflexivity. }
  split.
  - intros auth tok exp Ha H201 Htok Htt Hexp Het r2 w5 Hfn2. subst a.
    rewrite (attempt_eq fn _
               {| client := set_token (client st1) tok (Date_of exp);
                  world := w4; trace := sent |}
               (bearer (ToString tok)) r2 w5).
    + reflexivity.
    + rewrite authHeaders_eq.
      rewrite (getAccessToken_stored (invalidate (client st1)) w2 w3 w4
                 _ now auth tok exp); try assumption; try reflexivity.
      rewrite Hsent. reflexivity.
    + exact Hfn2.
  - intros Hfail e failed.
    assert (Hget : getAccessToken
                     {| client := invalidate (client st1); world := w2;
                        trace := trace st1 ++ [EvRequest opts1] |}
                   = (Threw e, failed)).
    { unfold e, failed. rewrite <- Hsent.
      destruct a as [auth|rejection].
      - destruct (status auth =? 201) eqn:Hs.
        + apply Z.eqb_eq in Hs.
          destruct (Get (data auth) "access_token") as [tok|] eqn:Htok.
          * assert (Hexp : exists exp, Get (data auth) "expires_at" = Some exp).
            { destruct (data auth); simpl in Htok; try discriminate;
                eexists; reflexivity. }
            destruct Hexp as [exp Hexp].
            apply (getAccessToken_incomplete (invalidate (client st1)) w2 w3 w4
                     _ now auth tok exp); try assumption.
            destruct (truthy tok) eqn:Htt; [|left; reflexivity].
            destruct (truthy exp) eqn:Het; [|right; reflexivity].
            exfalso. exact (Hfail auth tok exp eq_refl Hs Htok Htt Hexp Het).
          * apply (getAccessToken_no_body (invalidate (client st1)) w2 w3 w4
                     _ now auth); assumption.
        + apply Z.eqb_neq in Hs.
          apply (getAccessToken_bad_status (invalidate (client st1)) w2 w3 w4
                   _ now auth); assumption.
      - apply (getAccessToken_rejected (invalidate (client st1)) w2 w3 w4
                 _ now rejection); assumption. }
    split; [exact Hget|]. split; [|split].
    + apply attempt_no_headers. rewrite authHeaders_eq, Hget. reflexivity.
    + split; reflexivity.
    + unfold sent, request_calls. rewrite !filter_app, !length_app. simpl. lia.
Qed.

(** C7. A reply with a failure status other than 401 is not retried: the
    caller receives the typed error with that status code and that body.
    The same holds for a failing reply to the one retry after a 401.  The
    error's message is the body's [message] when the body has one, and
    "Request failed with status N" otherwise. *)
Theorem other_failure_not_retried (fn : Endpoint W) :
  (forall (st st1 : State W) (opts : RequestInit) (r : Response) (w2 : W),
      authHeaders st = (Returned opts, st1) ->
      fn opts (world st1) = (Returned r, w2) ->
      is_success (status r) = false ->
      status r <> 401 ->
      exists msg st',
        withErrorHandling fn st
        = (Threw (VouchsafeApiError (status r) (data r) msg), st')
        /\ world st' = w2
        /\ request_calls (trace st') = S (request_calls (trace st))
        /\ (forall m, GetOptional (data r) "message" = JStr m -> msg = m)
        /\ (nullish (GetOptional (data r) "message") = true ->
            msg = "Request failed with status " ++ Number_toString (status r)))
  /\
  (forall (st st1 st3 : State W) (opts opts' : RequestInit)
          (r1 r : Response) (w2 w4 : W),
      authHeaders st = (Returned opts, st1) ->
      fn opts (world st1) = (Returned r1, w2) ->
      status r1 = 401 ->
      authHeaders {| client := invalidate (client st1); world := w2;
                     trace := trace st1 ++ [EvRequest opts] |}
      = (Returned opts', st3) ->
      fn opts' (world st3) = (Returned r, w4) ->
      is_success (status r) = false ->
      exists msg st',
        withErrorHandling fn st
        = (Threw (VouchsafeApiError (status r) (data r) msg), st')
        /\ world st' = w4
        /\ request_calls (trace st') = S (S (request_calls (trace st)))
        /\ (forall m, GetOptional (data r) "message" = JStr m -> msg = m)
        /\ (nullish (GetOptional (data r) "message") = true ->
            msg = "Request failed with status " ++ Number_toString (status r))).
Proof.
  split.
  - intros st st1 opts r w2 Hh Hfn Hfail Hne.
    exists (error_message r). eexists. split; [|split; [|split; [|split]]].
    + apply withErrorHandling_failure; eassumption.
    + reflexivity.
    + simpl. rewrite request_calls_app.
      rewrite (authHeaders_sends_no_request _ _ _ Hh).
      unfold request_calls. simpl. lia.
    + apply error_message_present.
    + apply error_message_absent.
  - intros st st1 st3 opts opts' r1 r w2 w4 Hh Hfn H401 Hh' Hfn' Hfail.
    exists (error_message r). eexists. split; [|split; [|split; [|split]]].
    + rewrite (withErrorHandling_401 fn st st1 opts r1 w2 Hh Hfn H401).
      rewrite (attempt_eq fn _ st3 opts' (Returned r) w4 Hh' Hfn').
      rewrite Hfail. reflexivity.
    + reflexivity.
    + simpl. rewrite request_calls_app.
      rewrite (authHeaders_sends_no_request _ _ _ Hh'). simpl.
      rewrite request_calls_app.
      rewrite (authHeaders_sends_no_request _ _ _ Hh).
      unfold request_calls. simpl. lia.
    + apply error_message_present.
    + apply error_message_absent.
Qed.

(** Whatever the endpoint rejects with, other than the client's own 401
    error, reaches the caller as it is. *)
Lemma transport_error_propagates (fn : Endpoint W) (st st1 : State W)
      (opts : RequestInit) (w2 : W) (e : Thrown) :
  authHeaders st = (Returned opts, st1) ->
  fn opts (world st1) = (Threw e, w2) ->
  (forall body msg, e <> VouchsafeApiError 401 body msg) ->
  withErrorHandling fn st
  = (Threw e, {| client := client st1; world := w2;
                 trace := trace st1 ++ [EvRequest opts] |}).
Proof.
  intros Hh Hfn Hne.
  rewrite withErrorHandling_eq.
  rewrite (attempt_eq fn st st1 opts (Threw e) w2 Hh Hfn).
  destruct e as [statusCode body msg|response|name]; try reflexivity.
  destruct (Z.eqb_spec statusCode 401) as [->|_]; [|reflexivity].
  exfalso. apply (Hne body msg). reflexivity.
Qed.

(** ** Further properties of the fetch client *)

(** What [getAccessToken] can do to the fields: nothing, or store a
    truthy token that it also returns. *)
Lemma getAccessToken_client (st st' : State W) (out : Outcome JSValue) :
  getAccessToken st = (out, st') ->
  (client st' = client st
   /\ (forall t, out = Returned t ->
                 t = token (client st) /\ truthy t = true))
  \/ exists tok exp,
      truthy tok = true /\ truthy exp = true /\ out = Returned tok
      /\ client st' = set_token (client st) tok (Date_of exp).
Proof.
  destruct st as [c w tr].
  unfold FetchClient.getAccessToken. unfold_monad.
  destruct (Date_now w) as [now w1]. simpl.
  destruct (cache_valid c now) eqn:Hvalid; simpl.
  - intros H. injection H as <- <-. left. split; [reflexivity|].
    intros t Ht. injection Ht as <-. split; [reflexivity|].
    unfold cache_valid in Hvalid. apply andb_true_iff in Hvalid. tauto.
  - destruct (authenticate (authBody_of c) w1) as [[a|e] w2].
    + destruct (status a =? 201); simpl.
      * destruct (Get (data a) "access_token") as [tok|]; simpl.
        -- destruct (truthy tok) eqn:Htt; simpl.
           ++ destruct (Get (data a) "expires_at") as [exp|]; simpl.
              ** destruct (truthy exp) eqn:Het; simpl; intros H;
                   injection H as <- <-.
                 --- right. exists tok, exp. repeat split; assumption.
                 --- left. split; [reflexivity | discriminate].
              ** intros H; injection H as <- <-.
                 left. split; [reflexivity | discriminate].
           ++ intros H; injection H as <- <-.
              left. split; [reflexivity | discriminate].
        -- intros H; injection H as <- <-.
           left. split; [reflexivity | discriminate].
      * intros H; injection H as <- <-.
        left. split; [reflexivity | discriminate].
    + intros H; injection H as <- <-.
      left. split; [reflexivity | discriminate].
Qed.

(** Taking an attempt apart. *)
Lemma attempt_inv (fn : Endpoint W) (st st' : State W) (out : Outcome JSValue) :
  attempt fn st = (out, st') ->
  (exists e, getAccessToken st = (Threw e, st') /\ out = Threw e)
  \/ exists t st1 r,
      getAccessToken st = (Returned t, st1)
      /\ fn (bearer (ToString t)) (world st1) = (r, world st')
      /\ client st' = client st1
      /\ trace st' = (trace st1 ++ [EvRequest (bearer (ToString t))])%list
      /\ out = match r with
               | Returned response =>
                   if is_success (status response) then Returned (data response)
                   else Threw (VouchsafeApiError (status response) (data response)
                                                 (error_message response))
               | Threw e => Threw e
               end.
Proof.
  intros H.
  destruct (getAccessToken st) as [[t|e] st1] eqn:Hget.
  - right.
    assert (Hh : authHeaders st = (Returned (bearer (ToString t)), st1))
      by (rewrite authHeaders_eq, Hget; reflexivity).
    destruct (fn (bearer (ToString t)) (world st1)) as [r w2] eqn:Hfn.
    rewrite (attempt_eq fn st st1 _ r w2 Hh Hfn) in H.
    injection H as <- <-.
    exists t, st1, r. repeat split; assumption.
  - left. exists e.
    rewrite (attempt_no_headers fn st st1 e) in H
      by (rewrite authHeaders_eq, Hget; reflexivity).
    injection H as <- <-. split; reflexivity.
Qed.

(** Whatever holds of the fields and survives both a store of a truthy
    token and the emptying of the cache, survives a wrapped call. *)
Lemma withErrorHandling_client_closed (P : Client -> Prop)
      (fn : Endpoint W) (st st' : State W) (out : Outcome JSValue) :
  (forall c, P c -> P (invalidate c)) ->
  (forall c tok d, P c -> truthy tok = true -> P (set_token c tok d)) ->
  P (client st) ->
  withErrorHandling fn st = (out, st') ->
  P (client st').
Proof.
  intros Hinv Hset.
  assert (Hget : forall s s' o, P (client s) -> getAccessToken s = (o, s') ->
                                P (client s')).
  { intros s s' o Hp Hg.
    destruct (getAccessToken_client s s' o Hg)
      as [[Hc _] | [tok [exp [Htt [_ [_ Hc]]]]]]; rewrite Hc.
    - exact Hp.
    - apply Hset; assumption. }
  assert (Hatt : forall s s' o, P (client s) -> attempt fn s = (o, s') ->
                                P (client s')).
  { intros s s' o Hp Ha.
    destruct (attempt_inv fn s s' o Ha)
      as [[e [Hg _]] | [t [s1 [r [Hg [_ [Hc _]]]]]]].
    - exact (Hget s s' _ Hp Hg).
    - rewrite Hc. exact (Hget s s1 _ Hp Hg). }
  intros Hp H. rewrite withErrorHandling_eq in H.
  destruct (attempt fn st) as [[d|e] s1] eqn:Ha.
  - injection H as <- <-. exact (Hatt st s1 _ Hp Ha).
  - pose proof (Hatt st s1 _ Hp Ha) as Hp1.
    destruct e as [statusCode body msg|response|name];
      try (injection H as <- <-; exact Hp1).
    destruct (statusCode =? 401).
    + apply (Hatt {| client := invalidate (client s1); world := world s1;
                     trace := trace s1 |} st' out); [|exact H].
      simpl. apply Hinv. exact Hp1.
    + injection H as <- <-. exact Hp1.
Qed.

(** X1. The fields of an instance stay consistent: a new instance has an
    empty cache, and after any wrapped call, whatever its outcome, the
    cache is either empty or holds a truthy token beside a date. *)
Theorem cache_stays_consistent :
  (forall o, cache_consistent (constructor o))
  /\ forall (fn : Endpoint W) (st st' : State W) (out : Outcome JSValue),
      cache_consistent (client st) ->
      withErrorHandling fn st = (out, st') ->
      cache_consistent (client st').
Proof.
  split.
  - intros o. left. split; reflexivity.
  - intros fn st st' out Hc H.
    apply (withErrorHandling_client_closed cache_consistent fn st st' out);
      try assumption.
    + intros c _. left. split; reflexivity.
    + intros c tok d _ Htt. right. split; [exact Htt|]. exists d. reflexivity.
Qed.

(** X2. The credentials given to the constructor are never written: a
    wrapped call leaves [options] as it found them. *)
Theorem credentials_never_change
        (fn : Endpoint W) (st st' : State W) (out : Outcome JSValue) :
  withErrorHandling fn st = (out, st') ->
  options (client st') = options (client st).
Proof.
  intros H.
  apply (withErrorHandling_client_closed
           (fun c => options c = options (client st)) fn st st' out);
    try assumption; try reflexivity.
  - intros c Hc. exact Hc.
  - intros c tok d Hc _. exact Hc.
Qed.

(** What one attempt adds to the log: at most one [authenticate] call,
    made with the stored credentials, and at most one request. *)
Lemma attempt_log (fn : Endpoint W) (st st' : State W) (out : Outcome JSValue) :
  attempt fn st = (out, st') ->
  options (client st') = options (client st)
  /\ exists added,
      trace st' = (trace st ++ added)%list
      /\ (request_calls added <= 1)%nat
      /\ (authenticate_calls added <= 1)%nat
      /\ Forall (fun ev => is_authenticate ev = true ->
                           ev = EvAuthenticate (authBody_of (client st))) added.
Proof.
  intros H.
  assert (Hget : forall o s1, getAccessToken st = (o, s1) ->
            options (client s1) = options (client st)
            /\ exists la, trace s1 = (trace st ++ la)%list
                 /\ (la = [] \/ la = [EvAuthenticate (authBody_of (client st))])).
  { intros o s1 Hg. split.
    - destruct (getAccessToken_client st s1 o Hg)
        as [[Hc _] | [tok [exp [_ [_ [_ Hc]]]]]]; rewrite Hc; reflexivity.
    - destruct (getAccessToken_trace st s1 o Hg) as [Ht|Ht].
      + exists []. rewrite app_nil_r. auto.
      + eexists. split; [exact Ht|]. right. reflexivity. }
  destruct (attempt_inv fn st st' out H)
    as [[e [Hg _]] | [t [s1 [r [Hg [_ [Hc [Ht _]]]]]]]].
  - destruct (Hget _ _ Hg) as [Ho [la [Hla Hshape]]].
    split; [exact Ho|]. exists la. split; [exact Hla|].
    destruct Hshape as [-> | ->]; repeat split; simpl; auto.
  - destruct (Hget _ _ Hg) as [Ho [la [Hla Hshape]]].
    split; [rewrite Hc; exact Ho|].
    exists (la ++ [EvRequest (bearer (ToString t))])%list.
    split; [rewrite Ht, Hla, app_assoc; reflexivity|].
    destruct Hshape as [-> | ->]; repeat split; simpl; auto;
      repeat constructor; discriminate.
Qed.

(** X3. A wrapped call makes at most two attempts: whatever the world
    answers, it adds to the log at most two requests and at most two
    [authenticate] calls, each of these with the credentials of the
    constructor; nothing that was logged before is lost. *)
Theorem at_most_two_attempts
        (fn : Endpoint W) (st st' : State W) (out : Outcome JSValue) :
  withErrorHandling fn st = (out, st') ->
  exists added,
    trace st' = (trace st ++ added)%list
    /\ (request_calls added <= 2)%nat
    /\ (authenticate_calls added <= 2)%nat
    /\ Forall (fun ev => is_authenticate ev = true ->
                         ev = EvAuthenticate (authBody_of (client st))) added.
Proof.
  intros H. rewrite withErrorHandling_eq in H.
  destruct (attempt fn st) as [o s1] eqn:Ha.
  destruct (attempt_log fn st s1 o Ha) as [Ho [l1 [Hl1 [Hr1 [Ha1 Hf1]]]]].
  assert (Hone : (o, s1) = (out, st') ->
                 exists added,
                   trace st' = (trace st ++ added)%list
                   /\ (request_calls added <= 2)%nat
                   /\ (authenticate_calls added <= 2)%nat
                   /\ Forall (fun ev => is_authenticate ev = true ->
                                ev = EvAuthenticate (authBody_of (client st))) added).
  { intros E. injection E as <- <-. exists l1. repeat split; auto; lia. }
  destruct o as [d|e]; [apply Hone; exact H|].
  destruct e as [statusCode body msg|response|name];
    try (apply Hone; exact H).
  destruct (statusCode =? 401); [|apply Hone; exact H].
  destruct (attempt_log fn _ st' out H) as [_ [l2 [Hl2 [Hr2 [Ha2 Hf2]]]]].
  simpl in Hl2, Hf2.
  exists (l1 ++ l2)%list. split; [|split; [|split]].
  - rewrite Hl2, Hl1, app_assoc. reflexivity.
  - rewrite request_calls_app. lia.
  - rewrite authenticate_calls_app. lia.
  - apply Forall_app. split; [exact Hf1|].
    assert (Hb : authBody_of (invalidate (client s1)) = authBody_of (client st)).
    { unfold authBody_of. simpl. rewrite Ho. reflexivity. }
    rewrite Hb in Hf2. exact Hf2.
Qed.

(** The token that [getAccessToken] returns is truthy and is the one
    that is cached when it returns. *)
Lemma getAccessToken_returns_cached (st st' : State W) (t : JSValue) :
  getAccessToken st = (Returned t, st') ->
  token (client st') = t /\ truthy t = true.
Proof.
  intros H.
  destruct (getAccessToken_client st st' _ H)
    as [[Hc Hhit] | [tok [exp [Htt [_ [Hout Hc]]]]]].
  - destruct (Hhit t eq_refl) as [-> Htt]. rewrite Hc. split; [reflexivity|exact Htt].
  - injection Hout as ->. rewrite Hc. split; [reflexivity|exact Htt].
Qed.

(** X4. A payload reaches the caller only as the data of a reply with status
    200 or 201, and the request behind that reply was the last message
    sent, under the truthy token that is cached at the end. *)
Theorem payload_comes_from_success
        (fn : Endpoint W) (st st' : State W) (d : JSValue) :
  withErrorHandling fn st = (Returned d, st') ->
  truthy (token (client st')) = true
  /\ exists r w0 sent,
      fn (bearer (ToString (token (client st')))) w0 = (Returned r, world st')
      /\ is_success (status r) = true
      /\ d = data r
      /\ trace st'
         = (sent ++ [EvRequest (bearer (ToString (token (client st'))))])%list.
Proof.
  intros H.
  assert (Hatt : forall s, attempt fn s = (Returned d, st') ->
            truthy (token (client st')) = true
            /\ exists r w0 sent,
                fn (bearer (ToString (token (client st')))) w0 = (Returned r, world st')
                /\ is_success (status r) = true
                /\ d = data r
                /\ trace st'
                   = (sent ++ [EvRequest (bearer (ToString (token (client st'))))])%list).
  { intros s Ha.
    destruct (attempt_inv fn s st' _ Ha)
      as [[e [_ Hout]] | [t [s1 [r [Hg [Hfn [Hc [Ht Hout]]]]]]]];
      [discriminate|].
    destruct (getAccessToken_returns_cached s s1 t Hg) as [Htok Htt].
    rewrite Hc, Htok. split; [exact Htt|].
    destruct r as [response|e]; [|discriminate].
    destruct (is_success (status response)) eqn:Hok; [|discriminate].
    injection Hout as ->.
    exists response, (world s1), (trace s1). repeat split; assumption. }
  rewrite withErrorHandling_eq in H.
  destruct (attempt fn st) as [[d0|e] s1] eqn:Ha.
  - injection H as <- <-. exact (Hatt st Ha).
  - destruct e as [statusCode body msg|response|name]; try discriminate.
    destruct (statusCode =? 401); [|discriminate].
    exact (Hatt _ H).
Qed.

(** X5. A 401 from [authenticate] itself is caught like a 401 from the
    endpoint: the typed error of [getAccessToken] carries status 401, so
    the wrapper empties the cache and makes a second attempt, which
    authenticates again.  When the second reply is refused as well, its
    error reaches the caller after two [authenticate] calls and no
    request. *)
Theorem authenticate_401_retried
        (fn : Endpoint W) (c : Client) (w w1 w2 : W) (tr : list Event)
        (now : Z) (a : Response) :
  Date_now w = (now, w1) ->
  refresh_required c now ->
  authenticate (authBody_of c) w1 = (Returned a, w2) ->
  status a = 401 ->
  withErrorHandling fn {| client := c; world := w; trace := tr |}
  = attempt fn {| client := invalidate c; world := w2;
                  trace := tr ++ [EvAuthenticate (authBody_of c)] |}
  /\ forall now2 w3 a2 w4,
      Date_now w2 = (now2, w3) ->
      authenticate (authBody_of c) w3 = (Returned a2, w4) ->
      status a2 <> 201 ->
      withErrorHandling fn {| client := c; world := w; trace := tr |}
      = (Threw (VouchsafeApiError (status a2) (data a2) "Authentication failed"),
         {| client := invalidate c; world := w4;
            trace := tr ++ [EvAuthenticate (authBody_of c);
                            EvAuthenticate (authBody_of c)] |}).
Proof.
  intros Hnow Hreq Hauth H401.
  apply refresh_required_iff in Hreq.
  assert (Hne : status a <> 201) by (rewrite H401; discriminate).
  assert (Hfirst :
            withErrorHandling fn {| client := c; world := w; trace := tr |}
            = attempt fn {| client := invalidate c; world := w2;
                            trace := tr ++ [EvAuthenticate (authBody_of c)] |}).
  { rewrite withErrorHandling_eq.
    rewrite (attempt_no_headers fn _
               {| client := c; world := w2;
                  trace := tr ++ [EvAuthenticate (authBody_of c)] |}
               (VouchsafeApiError (status a) (data a) "Authentication failed")).
    - rewrite H401. reflexivity.
    - rewrite authHeaders_eq.
      rewrite (getAccessToken_bad_status c w w1 w2 tr now a Hnow Hreq Hauth Hne).
      reflexivity. }
  split; [exact Hfirst|].
  intros now2 w3 a2 w4 Hnow2 Hauth2 Hne2.
  rewrite Hfirst.
  apply attempt_no_headers. rewrite authHeaders_eq.
  rewrite (getAccessToken_bad_status (invalidate c) w2 w3 w4 _ now2 a2);
    try assumption; try reflexivity.
  rewrite <- app_assoc. reflexivity.
Qed.


(** X7. Two calls of [getAccessToken] in a row, the first of which stores a
    new token.  When the stored expiry lies more than five minutes after
    the second clock reading, the second call returns the stored token
    without a message.  When the stored [expires_at] did not give a
    valid date, or the expiry lies within five minutes, the second call
    authenticates again: such a token is never reused. *)
Theorem refreshed_token_reused_or_not
        (c : Client) (w w1 w2 w3 : W) (tr : list Event) (now now2 : Z)
        (a : Response) (tok exp : JSValue) :
  Date_now w = (now, w1) ->
  refresh_required c now ->
  authenticate (authBody_of c) w1 = (Returned a, w2) ->
  status a = 201 ->
  Get (data a) "access_token" = Some tok -> truthy tok = true ->
  Get (data a) "expires_at" = Some exp -> truthy exp = true ->
  Date_now w2 = (now2, w3) ->
  let stored := set_token c tok (Date_of exp) in
  let twice := (getAccessToken ;;; getAccessToken)
                 {| client := c; world := w; trace := tr |} in
  (forall e, Date_of exp = TimeValue e -> now2 + bufferMs < e ->
     twice = (Returned tok,
              {| client := stored; world := w3;
                 trace := tr ++ [EvAuthenticate (authBody_of c)] |}))
  /\
  (Date_of exp = InvalidDate
   \/ (exists e, Date_of exp = TimeValue e /\ e <= now2 + bufferMs) ->
   forall r w4,
     authenticate (authBody_of c) w3 = (r, w4) ->
     exists out c',
       twice = (out,
                {| client := c'; world := w4;
                   trace := tr ++ [EvAuthenticate (authBody_of c);
                                   EvAuthenticate (authBody_of c)] |})).
Proof.
  intros Hnow Hreq Hauth H201 Htok Htt Hexp Het Hnow2 stored twice.
  apply refresh_required_iff in Hreq.
  assert (Hfirst : twice
                   = getAccessToken
                       {| client := stored; world := w2;
                          trace := tr ++ [EvAuthenticate (authBody_of c)] |}).
  { unfold twice, bind.
    rewrite (getAccessToken_stored c w w1 w2 tr now a tok exp); auto. }
  split.
  - intros e He Hlt. rewrite Hfirst.
    rewrite (getAccessToken_hit stored w2 w3 _ now2 Hnow2); [reflexivity|].
    apply token_valid_at_iff. split; [exact Htt|].
    exists e. split; [simpl; rewrite He; reflexivity | exact Hlt].
  - intros Hstale r w4 Hauth2. rewrite Hfirst.
    assert (Hmiss : cache_valid stored now2 = false).
    { apply refresh_required_iff. right. right.
      destruct Hstale as [Hi | [e [He Hle]]].
      - left. simpl. rewrite Hi. reflexivity.
      - right. exists e. split; [simpl; rewrite He; reflexivity | exact Hle]. }
    destruct (getAccessToken {| client := stored; world := w2;
                 trace := tr ++ [EvAuthenticate (authBody_of c)] |})
      as [out st'] eqn:Hrun.
    exists out, (client st').
    pose proof Hrun as Hrun'.
    revert Hrun'. unfold FetchClient.getAccessToken. unfold_monad.
    rewrite Hnow2. simpl. rewrite Hmiss. simpl.
    change (authBody_of stored) with (authBody_of c). rewrite Hauth2.
    rewrite <- app_assoc. simpl.
    destruct r as [a2|e2].
    + destruct (status a2 =? 201); simpl.
      * destruct (Get (data a2) "access_token") as [tok2|]; simpl.
        -- destruct (truthy tok2); simpl.
           ++ destruct (Get (data a2) "expires_at") as [exp2|]; simpl.
              ** destruct (truthy exp2); simpl; intros E;
                   injection E as <- <-; reflexivity.
              ** intros E; injection E as <- <-; reflexivity.
           ++ intros E; injection E as <- <-; reflexivity.
        -- intros E; injection E as <- <-; reflexivity.
      * intros E; injection E as <- <-; reflexivity.
    + intros E; injection E as <- <-; reflexivity.
Qed.

End Facts.

Section Methods.

Context {W : Type}.
Variable Date_now : W -> Z * W.
Variable Date_of : JSValue -> Date.
Variable ToString_other : JSValue -> string.
Variable authenticate : AuthenticateInput -> W -> Outcome Response * W.
Variables ListVerificationsParams RequestVerificationInput SmartLookupInput
          EvisaVerificationInput VerifySupportingDocumentBody : Type.

Local Abbreviation withErrorHandling :=
  (FetchClient.withErrorHandling W Date_now Date_of ToString_other authenticate).

(** Every public method of the fetch client is the wrapper applied once
    to its endpoint call. *)
Lemma fetch_methods_wrap_once
      (ep_getVerification ep_searchPostcode ep_getFlow ep_getArtefact
         : string -> Endpoint W)
      (ep_listVerifications : option ListVerificationsParams -> Endpoint W)
      (ep_requestVerification : RequestVerificationInput -> Endpoint W)
      (ep_performSmartLookup : SmartLookupInput -> Endpoint W)
      (ep_listFlows : Endpoint W)
      (ep_verifyEvisa : EvisaVerificationInput -> Endpoint W)
      (ep_verifySupportingDocument : VerifySupportingDocumentBody -> Endpoint W) :
  (forall id,
      getVerification W Date_now Date_of ToString_other authenticate
        ep_getVerification id
      = withErrorHandling (ep_getVerification id))
  /\ (forall params,
      listVerifications W Date_now Date_of ToString_other authenticate
        ListVerificationsParams ep_listVerifications params
      = withErrorHandling (ep_listVerifications params))
  /\ (forall input,
      requestVerification W Date_now Date_of ToString_other authenticate
        RequestVerificationInput ep_requestVerification input
      = withErrorHandling (ep_requestVerification input))
  /\ (forall input,
      performSmartLookup W Date_now Date_of ToString_other authenticate
        SmartLookupInput ep_performSmartLookup input
      = withErrorHandling (ep_performSmartLookup input))
  /\ (forall postcode,
      searchPostcode W Date_now Date_of ToString_other authenticate
        ep_searchPostcode postcode
      = withErrorHandling (ep_searchPostcode postcode))
  /\ listFlows W Date_now Date_of ToString_other authenticate ep_listFlows
     = withErrorHandling ep_listFlows
  /\ (forall id,
      getFlow W Date_now Date_of ToString_other authenticate ep_getFlow id
      = withErrorHandling (ep_getFlow id))
  /\ (forall key,
      getArtefact W Date_now Date_of ToString_other authenticate
        ep_getArtefact key
      = withErrorHandling (ep_getArtefact key))
  /\ (forall input,
      verifyEvisa W Date_now Date_of ToString_other authenticate
        EvisaVerificationInput ep_verifyEvisa input
      = withErrorHandling (ep_verifyEvisa input))
  /\ (forall input,
      verifySupportingDocument W Date_now Date_of ToString_other authenticate
        VerifySupportingDocumentBody ep_verifySupportingDocument input
      = withErrorHandling (ep_verifySupportingDocument input)).
Proof.
  repeat split.
Qed.

End Methods.

End FetchClientFacts.

Module ApiClientFacts.

Section Facts.

Context {W : Type}.
Variable Date_now : W -> Z * W.
Variable Date_of : JSValue -> Date.
Variable ToString_other : JSValue -> string.
Variable authenticationApi_authenticate :
  AuthenticateInput -> W -> Outcome JSValue * W.

Local Abbreviation getAccessToken :=
  (ApiClient.getAccessToken W Date_now Date_of authenticationApi_authenticate).
Local Abbreviation withErrorHandling :=
  (ApiClient.withErrorHandling W Date_now Date_of ToString_other
     authenticationApi_authenticate).
Local Abbreviation error_message := (ApiClient.error_message ToString_other).

Ltac unfold_monad :=
  unfold bind, try_catch, read_clock, get_client, modify_client, io,
    get_prop, ret, throw; simpl.

(** What the catch block does with the rejection of the thunk. *)
Lemma api_withErrorHandling_eq (fn : M W JSValue) (st : State W) :
  withErrorHandling fn st
  = match fn st with
    | (Returned d, st') => (Returned d, st')
    | (Threw (ResponseError response), st') =>
        if response_status response =? 401 then
          match getAccessToken {| client := invalidate (client st');
                                  world := world st'; trace := trace st' |} with
          | (Returned _, st'') => fn st''
          | (Threw e, st'') => (Threw e, st'')
          end
        else
          (Threw (VouchsafeApiError (response_status response)
                                    (ApiClient.read_body response)
                                    (error_message response)), st')
    | (Threw e, st') => (Threw e, st')
    end.
Proof.
  unfold ApiClient.withErrorHandling. unfold_monad.
  destruct (fn st) as [[d|e] st']; [reflexivity|].
  destruct e as [statusCode body msg|response|name]; try reflexivity.
  destruct (response_status response =? 401); [|reflexivity].
  destruct (getAccessToken _) as [[t|e] st'']; reflexivity.
Qed.

(** A body that cannot be read stands for [{}], whose [message] is
    undefined, so the status text becomes the message. *)
Lemma api_error_message_unreadable (response : FetchResponse) :
  response_json response = None ->
  ApiClient.read_body response = JObj []
  /\ error_message response = response_statusText response.
Proof.
  intros H. unfold ApiClient.error_message, ApiClient.read_body.
  rewrite H. split; reflexivity.
Qed.

(** C9. When the thunk rejects with an error response other than 401,
    the typed error is built from the body; a body that cannot be read or
    parsed does not make the wrapper fail: the empty object takes its
    place.  A rejection that is not an error response reaches the caller
    as it is, and so does whatever the retry after a 401 rejects with. *)
Theorem body_read_failure_tolerated (fn : M W JSValue) (st st1 : State W) :
  (forall response,
      fn st = (Threw (ResponseError response), st1) ->
      response_status response <> 401 ->
      response_json response = None ->
      withErrorHandling fn st
      = (Threw (VouchsafeApiError (response_status response) (JObj [])
                                  (response_statusText response)), st1))
  /\
  (forall e,
      fn st = (Threw e, st1) ->
      (forall response, e <> ResponseError response) ->
      withErrorHandling fn st = (Threw e, st1))
  /\
  (forall response t st2 e st3,
      fn st = (Threw (ResponseError response), st1) ->
      response_status response = 401 ->
      getAccessToken {| client := invalidate (client st1);
                        world := world st1; trace := trace st1 |}
      = (Returned t, st2) ->
      fn st2 = (Threw e, st3) ->
      withErrorHandling fn st = (Threw e, st3)).
Proof.
  split; [|split].
  - intros response Hfn Hne Hjson.
    rewrite api_withErrorHandling_eq, Hfn.
    apply Z.eqb_neq in Hne. rewrite Hne.
    destruct (api_error_message_unreadable response Hjson) as [-> ->].
    reflexivity.
  - intros e Hfn Hne.
    rewrite api_withErrorHandling_eq, Hfn.
    destruct e as [statusCode body msg|response|name]; try reflexivity.
    exfalso. apply (Hne response). reflexivity.
  - intros response t st2 e st3 Hfn H401 Hget Hretry.
    rewrite api_withErrorHandling_eq, Hfn.
    rewrite H401. simpl. rewrite Hget. exact Hretry.
Qed.

(** After a 401 the wrapper empties the cache, asks for a token once and
    runs the thunk once more; the outcome of that run is the caller's. *)
Lemma api_unauthorized_retried_once (fn : M W JSValue) (st st1 st2 : State W)
      (response : FetchResponse) (t : JSValue) :
  fn st = (Threw (ResponseError response), st1) ->
  response_status response = 401 ->
  getAccessToken {| client := invalidate (client st1);
                    world := world st1; trace := trace st1 |}
  = (Returned t, st2) ->
  withErrorHandling fn st = fn st2.
Proof.
  intros Hfn H401 Hget.
  rewrite api_withErrorHandling_eq, Hfn, H401. simpl. rewrite Hget.
  reflexivity.
Qed.

(** A rejected [authenticate] reaches the caller as it is and leaves the
    fields of the instance as they were. *)
Lemma api_failed_authentication_keeps_cache
      (c : Client) (w w1 w2 : W) (tr : list Event) (now : Z) (e : Thrown) :
  Date_now w = (now, w1) ->
  refresh_required c now ->
  authenticationApi_authenticate (ApiClient.authBody_of c) w1 = (Threw e, w2) ->
  getAccessToken {| client := c; world := w; trace := tr |}
  = (Threw e, {| client := c; world := w2;
                 trace := tr ++ [EvAuthenticate (ApiClient.authBody_of c)] |}).
Proof.
  intros Hnow Hreq Hauth.
  apply refresh_required_iff in Hreq.
  unfold ApiClient.getAccessToken. unfold_monad.
  rewrite Hnow. simpl. rewrite Hreq. simpl. rewrite Hauth. reflexivity.
Qed.

(** No check stands between the reply and the cache: whatever the body
    holds under the two names is stored. *)
Lemma api_reply_stored_unchecked
      (c : Client) (w w1 w2 : W) (tr : list Event) (now : Z)
      (fields : list (string * JSValue)) :
  Date_now w = (now, w1) ->
  refresh_required c now ->
  authenticationApi_authenticate (ApiClient.authBody_of c) w1
  = (Returned (JObj fields), w2) ->
  getAccessToken {| client := c; world := w; trace := tr |}
  = (Returned (own_property "access_token" fields),
     {| client := set_token c (own_property "access_token" fields)
                            (Date_of (own_property "expires_at" fields));
        world := w2;
        trace := tr ++ [EvAuthenticate (ApiClient.authBody_of c)] |}).
Proof.
  intros Hnow Hreq Hauth.
  apply refresh_required_iff in Hreq.
  unfold ApiClient.getAccessToken. unfold_monad.
  rewrite Hnow. simpl. rewrite Hreq. simpl. rewrite Hauth. reflexivity.
Qed.

(** In the client over the Api classes the two flow methods are the
    wrapper applied to the wrapper. *)
Lemma api_flow_methods_wrap_twice (flowsApi_listFlows : M W JSValue)
      (flowsApi_getFlow : string -> M W JSValue) (id : string) :
  ApiClient.listFlows W Date_now Date_of ToString_other
    authenticationApi_authenticate flowsApi_listFlows
  = withErrorHandling (withErrorHandling flowsApi_listFlows)
  /\ ApiClient.getFlow W Date_now Date_of ToString_other
       authenticationApi_authenticate flowsApi_getFlow id
     = withErrorHandling (withErrorHandling (flowsApi_getFlow id)).
Proof.
  split; reflexivity.
Qed.

(** ** Further properties of the client over the Api classes *)

(** X8. An error response other than 401 whose body can be read becomes the
    typed error with that status and that body; its message is the
    body's [message] when that is a string and the status text when the
    body has none.  The thunk is not run again. *)
Theorem api_error_body_translated
        (fn : M W JSValue) (st st1 : State W)
        (response : FetchResponse) (body : JSValue) :
  fn st = (Threw (ResponseError response), st1) ->
  response_status response <> 401 ->
  response_json response = Some body ->
  exists msg,
    withErrorHandling fn st
    = (Threw (VouchsafeApiError (response_status response) body msg), st1)
    /\ (forall m, GetOptional body "message" = JStr m -> msg = m)
    /\ (nullish (GetOptional body "message") = true ->
        msg = response_statusText response).
Proof.
  intros Hfn Hne Hjson.
  exists (error_message response).
  assert (Hbody : ApiClient.read_body response = body)
    by (unfold ApiClient.read_body; rewrite Hjson; reflexivity).
  split; [|split].
  - rewrite api_withErrorHandling_eq, Hfn.
    apply Z.eqb_neq in Hne. rewrite Hne, Hbody. reflexivity.
  - intros m Hm. unfold ApiClient.error_message. rewrite Hbody, Hm. reflexivity.
  - intros Hnull. unfold ApiClient.error_message, coalesce.
    rewrite Hbody, Hnull. reflexivity.
Qed.

(** X9. The wrapper around the wrapper, as [listFlows] and [getFlow] have
    it, behaves like the wrapper alone whenever the first run of the
    thunk does not reject with a 401. *)
Theorem api_double_wrap_agrees_unless_401
        (fn : M W JSValue) (st st1 : State W) (out : Outcome JSValue) :
  fn st = (out, st1) ->
  (forall response, out = Threw (ResponseError response) ->
                    response_status response <> 401) ->
  withErrorHandling (withErrorHandling fn) st = withErrorHandling fn st.
Proof.
  intros Hfn Hne.
  rewrite (api_withErrorHandling_eq (withErrorHandling fn) st).
  rewrite (api_withErrorHandling_eq fn st), Hfn.
  destruct out as [d|e]; [reflexivity|].
  destruct e as [statusCode body msg|response|name]; try reflexivity.
  pose proof (Hne response eq_refl) as Hr.
  apply Z.eqb_neq in Hr. rewrite Hr. reflexivity.
Qed.

(** X10. The wrapper around the wrapper when the thunk rejects with 401 and,
    after a new token, rejects again.  A second 401 is taken by the outer
    wrapper for a first one: it empties the cache, asks for another token
    and starts the inner wrapper afresh.  Any other error response of the
    retry, which the wrapper alone passes on as it is, is translated by
    the outer wrapper into the typed error. *)
Theorem api_double_wrap_second_round
        (fn : M W JSValue) (st st1 st2 st3 : State W)
        (first second : FetchResponse) (t : JSValue) :
  fn st = (Threw (ResponseError first), st1) ->
  response_status first = 401 ->
  getAccessToken {| client := invalidate (client st1);
                    world := world st1; trace := trace st1 |}
  = (Returned t, st2) ->
  fn st2 = (Threw (ResponseError second), st3) ->
  withErrorHandling fn st = (Threw (ResponseError second), st3)
  /\ (response_status second = 401 ->
      forall t' st4,
        getAccessToken {| client := invalidate (client st3);
                          world := world st3; trace := trace st3 |}
        = (Returned t', st4) ->
        withErrorHandling (withErrorHandling fn) st = withErrorHandling fn st4)
  /\ (response_status second <> 401 ->
      withErrorHandling (withErrorHandling fn) st
      = (Threw (VouchsafeApiError (response_status second)
                                  (ApiClient.read_body second)
                                  (error_message second)), st3)).
Proof.
  intros Hfn H401 Hget Hretry.
  assert (Hinner : withErrorHandling fn st = (Threw (ResponseError second), st3)).
  { rewrite api_withErrorHandling_eq, Hfn, H401. simpl. rewrite Hget.
    exact Hretry. }
  split; [exact Hinner|]. split.
  - intros H401' t' st4 Hget'.
    rewrite (api_withErrorHandling_eq (withErrorHandling fn) st), Hinner.
    rewrite H401'. simpl. rewrite Hget'. reflexivity.
  - intros Hne.
    rewrite (api_withErrorHandling_eq (withErrorHandling fn) st), Hinner.
    apply Z.eqb_neq in Hne. rewrite Hne. reflexivity.
Qed.

(** When the token cannot be re-acquired after a 401, the error of
    [getAccessToken] is the caller's, the thunk is not run a second time
    and the cache stays as [getAccessToken] left it. *)
Theorem api_failed_reacquisition_final
        (fn : M W JSValue) (st st1 st2 : State W)
        (response : FetchResponse) (e : Thrown) :
  fn st = (Threw (ResponseError response), st1) ->
  response_status response = 401 ->
  getAccessToken {| client := invalidate (client st1);
                    world := world st1; trace := trace st1 |}
  = (Threw e, st2) ->
  withErrorHandling fn st = (Threw e, st2).
Proof.
  intros Hfn H401 Hget.
  rewrite api_withErrorHandling_eq, Hfn, H401. simpl. rewrite Hget.
  reflexivity.
Qed.

Lemma api_getAccessToken_logs : logs_at_most getAccessToken 0 1.
Proof.
  intros [c w tr] st' out.
  unfold ApiClient.getAccessToken. unfold_monad.
  destruct (Date_now w) as [now w1]. simpl.
  destruct (cache_valid c now); simpl.
  - intros H. injection H as _ <-. exists []. simpl.
    rewrite app_nil_r. auto.
  - destruct (authenticationApi_authenticate (ApiClient.authBody_of c) w1)
      as [[response|e] w2]; simpl.
    + destruct (Get response "access_token") as [tok|]; simpl.
      * destruct (Get response "expires_at") as [exp|]; simpl;
          intros H; injection H as _ <-; eexists; simpl;
          (split; [reflexivity | split; auto]).
      * intros H; injection H as _ <-; eexists; simpl;
          (split; [reflexivity | split; auto]).
    + intros H; injection H as _ <-; eexists; simpl;
        (split; [reflexivity | split; auto]).
Qed.

(** The wrapper runs its thunk at most twice and asks for a token at most
    once in between. *)
Lemma api_withErrorHandling_logs (fn : M W JSValue) (r a : nat) :
  logs_at_most fn r a ->
  logs_at_most (withErrorHandling fn) (r + r) (a + 1 + a).
Proof.
  intros Hfn st st' out H.
  rewrite api_withErrorHandling_eq in H.
  destruct (fn st) as [o s1] eqn:H1.
  destruct (Hfn st s1 o H1) as [l1 [Hl1 [Hr1 Ha1]]].
  assert (Hone : (o, s1) = (out, st') ->
                 exists added,
                   trace st' = (trace st ++ added)%list
                   /\ (request_calls added <= r + r)%nat
                   /\ (authenticate_calls added <= a + 1 + a)%nat).
  { intros E. injection E as <- <-. exists l1. repeat split; auto; lia. }
  destruct o as [d|e]; [apply Hone; exact H|].
  destruct e as [statusCode body msg|response|name];
    try (apply Hone; exact H).
  destruct (response_status response =? 401).
  - destruct (getAccessToken _) as [o2 s2] eqn:H2.
    destruct (api_getAccessToken_logs _ _ _ H2) as [l2 [Hl2 [Hr2 Ha2]]].
    simpl in Hl2.
    destruct o2 as [t|e2].
    + destruct (Hfn s2 st' out H) as [l3 [Hl3 [Hr3 Ha3]]].
      exists (l1 ++ l2 ++ l3)%list. split; [|split].
      * rewrite Hl3, Hl2, Hl1. rewrite <- !app_assoc. reflexivity.
      * rewrite !FetchClientFacts.request_calls_app. lia.
      * rewrite !FetchClientFacts.authenticate_calls_app. lia.
    + injection H as <- <-.
      exists (l1 ++ l2)%list. split; [|split].
      * rewrite Hl2, Hl1. rewrite <- app_assoc. reflexivity.
      * rewrite FetchClientFacts.request_calls_app. lia.
      * rewrite FetchClientFacts.authenticate_calls_app. lia.
  - injection H as <- <-. exists l1. repeat split; auto; lia.
Qed.

(** X11. Counting the network calls of the wrapper, whatever its thunk
    does.  If one run of the thunk adds at most [r] requests and [a]
    [authenticate] calls, the wrapper applied once adds at most [2 r]
    and [2 a + 1], and the wrapper applied twice, as in [listFlows] and
    [getFlow], at most [4 r] and [4 a + 3].  For a generated call that
    asks the instance for its token, as the [Configuration] of the
    constructor lets it, and then sends one request, this is 2 requests
    and 3 [authenticate] calls for a method that wraps once, 4 and 7 for
    [listFlows]. *)
Theorem api_network_calls_bounded :
  (forall (fn : M W JSValue) (r a : nat),
      logs_at_most fn r a ->
      logs_at_most (withErrorHandling fn) (2 * r) (2 * a + 1)
      /\ logs_at_most
           (ApiClient.listFlows W Date_now Date_of ToString_other
              authenticationApi_authenticate fn) (4 * r) (4 * a + 3))
  /\
  (forall (flowsApi_getFlow : string -> M W JSValue) (id : string) (r a : nat),
      logs_at_most (flowsApi_getFlow id) r a ->
      logs_at_most
        (ApiClient.getFlow W Date_now Date_of ToString_other
           authenticationApi_authenticate flowsApi_getFlow id)
        (4 * r) (4 * a + 3))
  /\
  (forall (operation : string) (f : JSValue -> W -> Outcome JSValue * W),
      let call := (let* t := getAccessToken in io (EvApiCall operation) (f t)) in
      logs_at_most call 1 1
      /\ logs_at_most (withErrorHandling call) 2 3
      /\ logs_at_most
           (ApiClient.listFlows W Date_now Date_of ToString_other
              authenticationApi_authenticate call) 4 7).
Proof.
  assert (Hwrap : forall (fn : M W JSValue) (r a : nat),
             logs_at_most fn r a ->
             logs_at_most (withErrorHandling fn) (2 * r) (2 * a + 1)).
  { intros fn r a Hfn.
    replace (2 * r)%nat with (r + r)%nat by lia.
    replace (2 * a + 1)%nat with (a + 1 + a)%nat by lia.
    apply api_withErrorHandling_logs. exact Hfn. }
  assert (Htwice : forall (fn : M W JSValue) (r a : nat),
             logs_at_most fn r a ->
             logs_at_most (withErrorHandling (withErrorHandling fn))
                          (4 * r) (4 * a + 3)).
  { intros fn r a Hfn.
    replace (4 * r)%nat with (2 * (2 * r))%nat by lia.
    replace (4 * a + 3)%nat with (2 * (2 * a + 1) + 1)%nat by lia.
    apply Hwrap, Hwrap. exact Hfn. }
  split; [|split].
  - intros fn r a Hfn. split; [apply Hwrap | apply Htwice]; exact Hfn.
  - intros flowsApi_getFlow id r a Hfn. apply Htwice. exact Hfn.
  - intros operation f call.
    assert (Hcall : logs_at_most call 1 1).
    { intros st st' out. unfold call, bind.
      destruct (getAccessToken st) as [[t|e] s1] eqn:Hget; intros H.
      - destruct (api_getAccessToken_logs _ _ _ Hget) as [l1 [Hl1 [Hr1 Ha1]]].
        unfold io in H. destruct (f t (world s1)) as [o w']. injection H as _ <-.
        exists (l1 ++ [EvApiCall operation])%list. simpl. split; [|split].
        + rewrite Hl1, app_assoc. reflexivity.
        + rewrite FetchClientFacts.request_calls_app. simpl.
          unfold request_calls at 2. simpl. lia.
        + rewrite FetchClientFacts.authenticate_calls_app.
          unfold authenticate_calls at 2. simpl. lia.
      - injection H as _ <-.
        destruct (api_getAccessToken_logs _ _ _ Hget) as [l1 [Hl1 [Hr1 Ha1]]].
        exists l1. repeat split; auto; lia. }
    split; [exact Hcall|]. split.
    + exact (Hwrap call 1%nat 1%nat Hcall).
    + exact (Htwice call 1%nat 1%nat Hcall).
Qed.

End Facts.

End ApiClientFacts.

(** ** The index of the models *)

Module ModelExportsFacts.

Import ModelExports.

Local Open Scope nat_scope.
Local Open Scope list_scope.

Lemma JSString_eqb_eq (a b : JSString) : JSString_eqb a b = true <-> a = b.
Proof.
  revert b. induction a as [|x a IH]; intros [|y b]; simpl;
    try (split; [discriminate | discriminate]); try tauto.
  rewrite andb_true_iff, N.eqb_eq, IH.
  split.
  - intros [-> ->]. reflexivity.
  - intros H. injection H as -> ->. auto.
Qed.

(** *** The order of the sort *)

Lemma lt_irrefl (a : JSString) : lt a a = false.
Proof.
  induction a as [|x a IH]; simpl; [reflexivity|].
  rewrite N.ltb_irrefl, N.eqb_refl, IH. reflexivity.
Qed.

Lemma lt_trans (a b c : JSString) :
  lt a b = true -> lt b c = true -> lt a c = true.
Proof.
  revert b c. induction a as [|x a IH]; intros [|y b] [|z c]; simpl;
    try discriminate; try reflexivity.
  rewrite !orb_true_iff, !andb_true_iff, !N.ltb_lt, !N.eqb_eq.
  intros [Hxy | [Hxy Hab]] [Hyz | [Hyz Hbc]].
  - left. lia.
  - left. lia.
  - left. lia.
  - right. split; [lia|]. exact (IH b c Hab Hbc).
Qed.

(** Of two different strings one comes before the other. *)
Lemma lt_total (a b : JSString) :
  lt a b = false -> lt b a = false -> a = b.
Proof.
  revert b. induction a as [|x a IH]; intros [|y b]; simpl;
    try discriminate; try reflexivity.
  rewrite !orb_false_iff, !andb_false_iff, !N.ltb_ge, !N.eqb_neq.
  intros [Hxy Hab] [Hyx Hba].
  assert (x = y) by lia. subst y.
  f_equal. apply IH.
  - destruct Hab as [Hne|H]; [contradiction Hne; reflexivity | exact H].
  - destruct Hba as [Hne|H]; [contradiction Hne; reflexivity | exact H].
Qed.

Lemma le_trans (a b c : JSString) : le a b -> le b c -> le a c.
Proof.
  unfold le. intros Hab Hbc.
  destruct (lt c a) eqn:Hca; [|reflexivity].
  destruct (lt b c) eqn:E.
  - rewrite (lt_trans b c a E Hca) in Hab. discriminate.
  - rewrite (lt_total b c E Hbc) in Hab. congruence.
Qed.

Lemma le_antisym (a b : JSString) : le a b -> le b a -> a = b.
Proof.
  unfold le. intros Hab Hba. apply lt_total; assumption.
Qed.

(** *** The sort *)

Lemma insert_perm (x : JSString) (l : list JSString) :
  Permutation (insert x l) (x :: l).
Proof.
  induction l as [|y l IH]; simpl; [apply Permutation_refl|].
  destruct (lt x y); [apply Permutation_refl|].
  apply perm_trans with (y :: x :: l); [|apply perm_swap].
  apply perm_skip. exact IH.
Qed.

Lemma sort_perm (l : list JSString) : Permutation (sort l) l.
Proof.
  induction l as [|x l IH]; simpl; [apply perm_nil|].
  apply perm_trans with (x :: sort l); [apply insert_perm|].
  apply perm_skip. exact IH.
Qed.

Lemma insert_sorted (x : JSString) (l : list JSString) :
  StronglySorted le l -> StronglySorted le (insert x l).
Proof.
  induction l as [|y l IH]; simpl; intros Hs.
  - constructor; constructor.
  - apply StronglySorted_inv in Hs. destruct Hs as [Hl Hy].
    destruct (lt x y) eqn:Hxy.
    + constructor; [constructor; assumption|].
      assert (Hle : le x y).
      { unfold le. destruct (lt y x) eqn:Hyx; [|reflexivity].
        pose proof (lt_trans x y x Hxy Hyx) as H.
        rewrite lt_irrefl in H. discriminate. }
      constructor; [exact Hle|].
      apply Forall_impl with (P := le y); [|exact Hy].
      intros z Hz. exact (le_trans x y z Hle Hz).
    + constructor; [apply IH; exact Hl|].
      apply Forall_forall. intros z Hz.
      apply (Permutation_in _ (insert_perm x l)) in Hz.
      destruct Hz as [<- | Hz].
      * exact Hxy.
      * rewrite Forall_forall in Hy. apply Hy. exact Hz.
Qed.

Lemma sort_sorted (l : list JSString) : StronglySorted le (sort l).
Proof.
  induction l as [|x l IH]; simpl; [constructor|].
  apply insert_sorted. exact IH.
Qed.

(** A list has one sorted arrangement only. *)
Lemma sorted_unique (l1 l2 : list JSString) :
  StronglySorted le l1 -> StronglySorted le l2 -> Permutation l1 l2 -> l1 = l2.
Proof.
  revert l2. induction l1 as [|x l1 IH]; intros l2 H1 H2 Hp.
  - apply Permutation_nil in Hp. subst. reflexivity.
  - destruct l2 as [|y l2].
    + apply Permutation_sym, Permutation_nil in Hp. discriminate.
    + apply StronglySorted_inv in H1. destruct H1 as [Hs1 Hx].
      apply StronglySorted_inv in H2. destruct H2 as [Hs2 Hy].
      rewrite Forall_forall in Hx, Hy.
      assert (Hxy : x = y).
      { assert (Hin_y : In y (x :: l1))
          by (apply (Permutation_in _ (Permutation_sym Hp)); left; reflexivity).
        assert (Hin_x : In x (y :: l2))
          by (apply (Permutation_in _ Hp); left; reflexivity).
        destruct Hin_y as [E|Hin_y]; [exact E|].
        destruct Hin_x as [E|Hin_x]; [symmetry; exact E|].
        apply le_antisym; [apply Hx; exact Hin_y | apply Hy; exact Hin_x]. }
      subst y. f_equal.
      apply IH; try assumption.
      apply Permutation_cons_inv with x. exact Hp.
Qed.

Lemma sort_order_independent (l l' : list JSString) :
  Permutation l l' -> sort l = sort l'.
Proof.
  intros Hp. apply sorted_unique; try apply sort_sorted.
  apply perm_trans with l; [apply sort_perm|].
  apply perm_trans with l'; [exact Hp|].
  apply Permutation_sym, sort_perm.
Qed.

Lemma filter_perm (f : JSString -> bool) (l l' : list JSString) :
  Permutation l l' -> Permutation (filter f l) (filter f l').
Proof.
  induction 1 as [|x l l' _ IH|x y l|l l' l'' _ IH1 _ IH2]; simpl.
  - apply perm_nil.
  - destruct (f x); [apply perm_skip|]; exact IH.
  - destruct (f x), (f y); try apply Permutation_refl. apply perm_swap.
  - exact (perm_trans IH1 IH2).
Qed.

(** X12. The text of [index.ts] does not depend on the order in which the
    folder lists its files. *)
Theorem content_order_independent (listing listing' : list JSString) :
  Permutation listing listing' ->
  files listing = files listing'
  /\ content listing = content listing'.
Proof.
  intros Hp.
  assert (Hf : files listing = files listing').
  { unfold files. apply sort_order_independent.
    apply Permutation_map, filter_perm. exact Hp. }
  split; [exact Hf|].
  unfold content, exportStatements. rewrite Hf. reflexivity.
Qed.

(** X13. [files] is in ascending order and holds, for every listed name that
    ends in [.ts] other than [index.ts], the name after the replacement:
    none is lost, none is added, and a name listed twice counts twice. *)
Theorem files_sorted_and_complete (listing : list JSString) :
  StronglySorted le (files listing)
  /\ Permutation (files listing)
       (map (fun file => replace file (units ".ts") [])
            (filter is_model_file listing))
  /\ length (files listing) = length (filter is_model_file listing).
Proof.
  unfold files. split; [apply sort_sorted|].
  split; [apply sort_perm|].
  rewrite (Permutation_length (sort_perm _)). apply length_map.
Qed.

(** *** The replacement *)

Lemma startsWith_app (pat b : JSString) : startsWith (pat ++ b) pat = true.
Proof.
  induction pat as [|p pat IH]; simpl; [reflexivity|].
  rewrite N.eqb_refl, IH. reflexivity.
Qed.

Lemma startsWith_inv (s pat : JSString) :
  startsWith s pat = true -> s = pat ++ skipn (length pat) s.
Proof.
  revert s. induction pat as [|p pat IH]; intros s; simpl.
  - reflexivity.
  - destruct s as [|c s]; [discriminate|].
    rewrite andb_true_iff, N.eqb_eq. intros [-> H].
    simpl. f_equal. apply IH. exact H.
Qed.

(** Where [indexOf] finds the pattern, the pattern stands. *)
Lemma indexOf_found (s pat : JSString) (pos : nat) :
  indexOf s pat = Some pos ->
  s = firstn pos s ++ pat ++ skipn (pos + length pat) s.
Proof.
  revert pos. induction s as [|c s IH]; intros pos; simpl.
  - destruct (startsWith [] pat) eqn:Hs; [|discriminate].
    intros H. injection H as <-. simpl. apply startsWith_inv. exact Hs.
  - destruct (startsWith (c :: s) pat) eqn:Hs.
    + intros H. injection H as <-. simpl. apply startsWith_inv. exact Hs.
    + destruct (indexOf s pat) as [n|]; [|discriminate].
      simpl. intros H. injection H as <-. simpl. f_equal.
      apply IH. reflexivity.
Qed.

Lemma indexOf_start (s pat : JSString) :
  startsWith s pat = true -> indexOf s pat = Some 0.
Proof.
  intros H. destruct s; simpl; rewrite H; reflexivity.
Qed.

(** Before the first dot there is no [.ts]. *)
Lemma indexOf_after_dotless (a b : JSString) :
  ~ In 46%N a ->
  indexOf (a ++ units ".ts" ++ b) (units ".ts") = Some (length a).
Proof.
  induction a as [|c a IH]; intros Hdot.
  - apply indexOf_start. exact (startsWith_app (units ".ts") b).
  - assert (Hc : c <> 46%N) by (intros E; apply Hdot; left; exact E).
    assert (Ha : ~ In 46%N a) by (intros E; apply Hdot; right; exact E).
    change ((c :: a) ++ units ".ts" ++ b) with (c :: (a ++ units ".ts" ++ b)).
    cbn [indexOf].
    assert (Hs : startsWith (c :: a ++ units ".ts" ++ b) (units ".ts") = false).
    { cbn. apply N.eqb_neq in Hc. rewrite Hc. reflexivity. }
    rewrite Hs, (IH Ha). reflexivity.
Qed.

Lemma endsWith_app (a pat : JSString) : endsWith (a ++ pat) pat = true.
Proof.
  unfold endsWith. rewrite length_app.
  apply andb_true_iff. split.
  - apply Nat.leb_le. lia.
  - replace (length a + length pat - length pat) with (length a) by lia.
    rewrite skipn_app, skipn_all, Nat.sub_diag. simpl.
    apply JSString_eqb_eq. reflexivity.
Qed.

Lemma endsWith_inv (s pat : JSString) :
  endsWith s pat = true -> exists a, s = a ++ pat.
Proof.
  unfold endsWith. rewrite andb_true_iff, JSString_eqb_eq.
  intros [_ H]. exists (firstn (length s - length pat) s).
  pose proof (firstn_skipn (length s - length pat) s) as E.
  rewrite H in E. symmetry. exact E.
Qed.

(** X14. [replace] cuts the first [.ts] of a name, not its extension.
    For a name [a ++ ".ts" ++ b] whose part [a] has no dot the result is
    [a ++ b]: the base name when [b] is empty, and otherwise a name that
    has lost a piece from its middle. *)
Theorem first_ts_is_cut (a b : JSString) :
  ~ In 46%N a ->
  replace (a ++ units ".ts" ++ b) (units ".ts") [] = a ++ b.
Proof.
  intros Hdot. unfold replace.
  rewrite (indexOf_after_dotless a b Hdot).
  rewrite firstn_app, firstn_all, Nat.sub_diag, skipn_app.
  rewrite (skipn_all2 a) by lia.
  replace (length a + length (units ".ts") - length a)
    with (length (units ".ts")) by lia.
  simpl. rewrite app_nil_r. reflexivity.
Qed.

Lemma files_in (m : JSString) (listing : list JSString) :
  In m (files listing) <->
  exists file, In file listing /\ is_model_file file = true
               /\ m = replace file (units ".ts") [].
Proof.
  unfold files. split.
  - intros H. apply (Permutation_in _ (sort_perm _)) in H.
    apply in_map_iff in H. destruct H as [file [Hm Hin]].
    apply filter_In in Hin. destruct Hin as [Hin Hmodel].
    exists file. repeat split; auto.
  - intros [file [Hin [Hmodel ->]]].
    apply (Permutation_in _ (Permutation_sym (sort_perm _))).
    apply in_map_iff. exists file. split; [reflexivity|].
    apply filter_In. split; assumption.
Qed.

(** X15. A model file [Base.ts] whose base name has no dot and is not [index]
    is exported under its base name. *)
Theorem model_file_exported (base : JSString) (listing : list JSString) :
  In (base ++ units ".ts") listing ->
  ~ In 46%N base ->
  base <> units "index" ->
  In base (files listing).
Proof.
  intros Hin Hdot Hne.
  apply files_in. exists (base ++ units ".ts"). split; [exact Hin|]. split.
  - unfold is_model_file. rewrite endsWith_app. simpl.
    destruct (JSString_eqb (base ++ units ".ts") (units "index.ts")) eqn:E;
      [|reflexivity].
    apply JSString_eqb_eq in E.
    change (units "index.ts") with (units "index" ++ units ".ts") in E.
    apply app_inv_tail in E. contradiction.
  - pose proof (first_ts_is_cut base [] Hdot) as H.
    rewrite !app_nil_r in H. symmetry. exact H.
Qed.

(** A name that ends in [.ts] loses one [.ts] in the replacement. *)
Lemma replace_model_file (file : JSString) :
  endsWith file (units ".ts") = true ->
  exists p q, file = p ++ units ".ts" ++ q
              /\ replace file (units ".ts") [] = p ++ q.
Proof.
  intros Hends. unfold replace.
  destruct (indexOf file (units ".ts")) as [pos|] eqn:Hidx.
  - exists (firstn pos file), (skipn (pos + length (units ".ts")) file).
    split; [|reflexivity].
    apply indexOf_found. exact Hidx.
  - exfalso.
    destruct (endsWith_inv _ _ Hends) as [a ->].
    revert Hidx. clear Hends.
    induction a as [|c a IH].
    + vm_compute. discriminate.
    + change ((c :: a) ++ units ".ts") with (c :: (a ++ units ".ts")).
      cbn [indexOf].
      destruct (startsWith (c :: a ++ units ".ts") (units ".ts"));
        [discriminate|].
      destruct (indexOf (a ++ units ".ts") (units ".ts"));
        [discriminate|].
      intros _. apply IH. reflexivity.
Qed.

(** X16. The index does not export itself: whatever the folder holds, no
    line of [index.ts] names the module [index]. *)
Theorem index_never_exported (listing : list JSString) :
  ~ In (units "index") (files listing).
Proof.
  intros H. apply files_in in H.
  destruct H as [file [_ [Hmodel Hm]]].
  unfold is_model_file in Hmodel. apply andb_true_iff in Hmodel.
  destruct Hmodel as [Hends Hnot].
  apply negb_true_iff in Hnot.
  destruct (replace_model_file file Hends) as [p [q [Hfile Hcut]]].
  rewrite Hcut in Hm. subst file. clear Hcut.
  destruct p as [|c1 p]; simpl in Hm;
    [subst q; vm_compute in Hends; discriminate|].
  destruct p as [|c2 p]; simpl in Hm;
    [injection Hm as <- <-; vm_compute in Hends; discriminate|].
  destruct p as [|c3 p]; simpl in Hm;
    [injection Hm as <- <- <-; vm_compute in Hends; discriminate|].
  destruct p as [|c4 p]; simpl in Hm;
    [injection Hm as <- <- <- <-; vm_compute in Hends; discriminate|].
  destruct p as [|c5 p]; simpl in Hm;
    [injection Hm as <- <- <- <- <-; vm_compute in Hends; discriminate|].
  destruct p as [|c6 p]; simpl in Hm.
  - injection Hm as <- <- <- <- <- <-. vm_compute in Hnot. discriminate.
  - discriminate.
Qed.

End ModelExportsFacts.

(** * Runs on concrete inputs *)

Module Runs.

Import Scripted.

Local Abbreviation getAccessToken :=
  (FetchClient.getAccessToken Script Date_now Date_of authenticate).
Local Abbreviation authHeaders :=
  (FetchClient.authHeaders Script Date_now Date_of ToString_other authenticate).
Local Abbreviation withErrorHandling :=
  (FetchClient.withErrorHandling Script Date_now Date_of ToString_other authenticate).

(** The first scenario of the specification: a fresh instance
    authenticates, [getVerification] sends [Bearer abc] and returns the
    data of the 200 reply. *)
Example scenario_first_call :
  FetchClient.getVerification Script Date_now Date_of ToString_other authenticate
    (fun _ => endpoint) "X"
    (initial (constructor credentials)
             (script [1000] [reply 201 (token_body "abc" 3601000)]
                     [reply 200 (JObj [("id", JStr "X")])]))
  = (Returned (JObj [("id", JStr "X")]),
     {| client := holding "abc" 3601000;
        world := script [] [] [];
        trace := [EvAuthenticate {| input_client_id := "id";
                                    input_client_secret := "secret" |};
                  EvRequest (bearer "abc")] |}).
Proof. reflexivity. Qed.

(** A token that is good for an hour is handed out again, twice in a row
    and under two wrapped calls, without any [authenticate] call. *)
Lemma cached_token_reused_witness :
  let c := holding "abc" 3600000 in
  let r := {| FetchClient.status := 200;
              FetchClient.data := JObj [("id", JStr "X")] |} in
  FetchClient.getAccessToken unit (steady_clock 1000) Date_of offline
    {| client := c; world := tt; trace := [] |}
  = (Returned (JStr "abc"), {| client := c; world := tt; trace := [] |})
  /\ exists ds w',
      FetchClient.repeated_calls unit (steady_clock 1000) Date_of ToString_other
        offline [steady_endpoint r; steady_endpoint r]
        {| client := c; world := tt; trace := [] |}
      = (Returned ds,
         {| client := c; world := w';
            trace := [EvRequest (bearer "abc"); EvRequest (bearer "abc")] |})
      /\ length ds = 2%nat.
Proof.
  intros c r.
  assert (Hvalid : token_valid_at c 1000).
  { split; [reflexivity|]. exists 3600000. split; [reflexivity|].
    unfold bufferMs; lia. }
  destruct (FetchClientFacts.cached_token_reused
              (steady_clock 1000) Date_of ToString_other offline) as [H1 H2].
  split.
  - apply (H1 c tt tt [] 1000); [reflexivity | exact Hvalid].
  - destruct (H2 (fun _ => True) [steady_endpoint r; steady_endpoint r] c tt [] I)
      as [ds [w' [Hrun [Hlen _]]]].
    + intros w0 _. split; [exact Hvalid | exact I].
    + repeat constructor; intros opts w0 _; exists r, w0;
        repeat split; reflexivity.
    + exists ds, w'. split; [exact Hrun | exact Hlen].
Defined.

(** A fresh instance authenticates once and keeps what it gets. *)
Lemma refresh_authenticates_once_witness :
  exists out c',
    getAccessToken
      (initial (constructor credentials)
               (script [1000] [reply 201 (token_body "abc" 5000000)] []))
    = (out, {| client := c'; world := script [] [] [];
               trace := [EvAuthenticate {| input_client_id := "id";
                                           input_client_secret := "secret" |}] |})
    /\ out = Returned (JStr "abc")
    /\ token c' = JStr "abc"
    /\ tokenExpiry c' = Some (TimeValue 5000000).
Proof.
  destruct (FetchClientFacts.refresh_authenticates_once
              Date_now Date_of authenticate
              (constructor credentials)
              (script [1000] [reply 201 (token_body "abc" 5000000)] [])
              (script [] [reply 201 (token_body "abc" 5000000)] [])
              (script [] [] []) [] 1000
              (reply 201 (token_body "abc" 5000000)))
    as [out [c' [Hrun Hstore]]].
  - reflexivity.
  - left. reflexivity.
  - reflexivity.
  - exists out, c'. split; [exact Hrun|].
    destruct (Hstore _ (JStr "abc") (JNum 5000000) eq_refl eq_refl eq_refl
                     eq_refl eq_refl eq_refl) as [Hout [Htok [Hexp _]]].
    repeat split; assumption.
Defined.

(** A refused refresh leaves the stale token where it was. *)
Lemma failed_authentication_keeps_cache_witness :
  exists st',
    getAccessToken
      (initial (holding "stale" 1000) (script [2000] [reply 500 (JObj [])] []))
    = (Threw (VouchsafeApiError 500 (JObj []) "Authentication failed"), st')
    /\ client st' = holding "stale" 1000.
Proof.
  destruct (FetchClientFacts.failed_authentication_keeps_cache
              Date_now Date_of authenticate
              (holding "stale" 1000)
              (script [2000] [reply 500 (JObj [])] [])
              (script [] [reply 500 (JObj [])] [])
              (script [] [] []) [] 2000
              {| FetchClient.status := 500; FetchClient.data := JObj [] |})
    as [st' [Hrun [Hclient _]]].
  - reflexivity.
  - right. right. right. exists 1000. split; [reflexivity|]. unfold bufferMs. lia.
  - reflexivity.
  - discriminate.
  - exists st'. split; [exact Hrun | exact Hclient].
Defined.

(** C5, as the specification words it, fails: the refresh is required,
    [authenticate] answers 500, and afterwards the instance still holds
    the token it held before. *)
Lemma stale_token_outlives_failed_refresh :
  let c := holding "stale" 1000 in
  let run := getAccessToken (initial c (script [2000] [reply 500 (JObj [])] [])) in
  refresh_required c 2000
  /\ fst run = Threw (VouchsafeApiError 500 (JObj []) "Authentication failed")
  /\ token (client (snd run)) = JStr "stale"
  /\ ~ cache_empty (client (snd run)).
Proof.
  repeat split.
  - right. right. right. exists 1000. split; [reflexivity|]. unfold bufferMs. lia.
  - intros [Htoken _]. discriminate Htoken.
Qed.

(** An empty [access_token] in a 201 reply: the error says 201 and the
    endpoint is never called. *)
Lemma falsy_field_reports_201_witness :
  let st := initial (constructor credentials)
                    (script [1000] [reply 201 (token_body "" 5000000)]
                            [reply 200 (JObj [])]) in
  let err := VouchsafeApiError 201 (token_body "" 5000000)
               "Authentication response missing token or expiry" in
  let st' := {| client := constructor credentials;
                world := script [] [] [reply 200 (JObj [])];
                trace := [EvAuthenticate (FetchClient.authBody_of
                                            (constructor credentials))] |} in
  getAccessToken st = (Threw err, st')
  /\ withErrorHandling endpoint st = (Threw err, st').
Proof.
  intros st err st'.
  apply (FetchClientFacts.falsy_field_reports_201
           Date_now Date_of ToString_other authenticate
           (constructor credentials)
           (script [1000] [reply 201 (token_body "" 5000000)] [reply 200 (JObj [])])
           (script [] [reply 201 (token_body "" 5000000)] [reply 200 (JObj [])])
           (script [] [] [reply 200 (JObj [])]) [] 1000
           {| FetchClient.status := 201;
              FetchClient.data := token_body "" 5000000 |}
           (JStr "") (JNum 5000000) endpoint).
  - reflexivity.
  - left. reflexivity.
  - reflexivity.
  - reflexivity.
  - reflexivity.
  - reflexivity.
  - left. reflexivity.
Defined.



(** The second scenario of the specification: 401, then a new token, then
    the payload.  And a re-acquisition that fails on a 201 reply: the token
    in it is empty, the caller receives the error of [getAccessToken], no
    second request is sent and the cache is empty. *)
Lemma unauthorized_retried_once_witness :
  withErrorHandling endpoint
    (initial (holding "old" 10000000)
             (script [1000; 1001] [reply 201 (token_body "new" 20000000)]
                     [reply 401 (JObj []); reply 200 (JObj [("id", JStr "X")])]))
  = (Returned (JObj [("id", JStr "X")]),
     {| client := holding "new" 20000000;
        world := script [] [] [];
        trace := [EvRequest (bearer "old");
                  EvAuthenticate {| input_client_id := "id";
                                    input_client_secret := "secret" |};
                  EvRequest (bearer "new")] |})
  /\
  withErrorHandling endpoint
    (initial (holding "old" 10000000)
             (script [1000; 1001] [reply 201 (token_body "" 20000000)]
                     [reply 401 (JObj []); reply 200 (JObj [("id", JStr "X")])]))
  = (Threw (VouchsafeApiError 201 (token_body "" 20000000)
              "Authentication response missing token or expiry"),
     {| client := constructor credentials;
        world := script [] [] [reply 200 (JObj [("id", JStr "X")])];
        trace := [EvRequest (bearer "old");
                  EvAuthenticate {| input_client_id := "id";
                                    input_client_secret := "secret" |}] |}).
Proof.
  split.
  - destruct (FetchClientFacts.unauthorized_retried_once
                Date_now Date_of ToString_other authenticate endpoint
                (initial (holding "old" 10000000)
                   (script [1000; 1001] [reply 201 (token_body "new" 20000000)]
                      [reply 401 (JObj []); reply 200 (JObj [("id", JStr "X")])]))
                {| client := holding "old" 10000000;
                   world := script [1001] [reply 201 (token_body "new" 20000000)]
                              [reply 401 (JObj []);
                               reply 200 (JObj [("id", JStr "X")])];
                   trace := [] |}
                (bearer "old")
                {| FetchClient.status := 401; FetchClient.data := JObj [] |}
                (script [1001] [reply 201 (token_body "new" 20000000)]
                   [reply 200 (JObj [("id", JStr "X")])])
                (script [] [reply 201 (token_body "new" 20000000)]
                   [reply 200 (JObj [("id", JStr "X")])])
                (script [] [] [reply 200 (JObj [("id", JStr "X")])])
                1001
                (reply 201 (token_body "new" 20000000))
                eq_refl eq_refl eq_refl eq_refl eq_refl) as [Hretry _].
    exact (Hretry _ (JStr "new") (JNum 20000000) eq_refl eq_refl eq_refl eq_refl
                  eq_refl eq_refl
                  (reply 200 (JObj [("id", JStr "X")])) (script [] [] []) eq_refl).
  - destruct (FetchClientFacts.unauthorized_retried_once
                Date_now Date_of ToString_other authenticate endpoint
                (initial (holding "old" 10000000)
                   (script [1000; 1001] [reply 201 (token_body "" 20000000)]
                      [reply 401 (JObj []); reply 200 (JObj [("id", JStr "X")])]))
                {| client := holding "old" 10000000;
                   world := script [1001] [reply 201 (token_body "" 20000000)]
                              [reply 401 (JObj []);
                               reply 200 (JObj [("id", JStr "X")])];
                   trace := [] |}
                (bearer "old")
                {| FetchClient.status := 401; FetchClient.data := JObj [] |}
                (script [1001] [reply 201 (token_body "" 20000000)]
                   [reply 200 (JObj [("id", JStr "X")])])
                (script [] [reply 201 (token_body "" 20000000)]
                   [reply 200 (JObj [("id", JStr "X")])])
                (script [] [] [reply 200 (JObj [("id", JStr "X")])])
                1001
                (reply 201 (token_body "" 20000000))
                eq_refl eq_refl eq_refl eq_refl eq_refl) as [_ Hfailed].
    destruct Hfailed as [_ [Hrun _]].
    + intros auth tok exp Ha _ Htok Htt _ _.
      injection Ha as <-. injection Htok as <-. discriminate Htt.
    + exact Hrun.
Defined.

(** C1, as the specification words it, fails: the first invocation is
    answered with 401, the re-acquisition is refused, and the wrapped call
    is not invoked a second time although a 200 was waiting for it. *)
Lemma failed_reacquisition_skips_retry :
  let st := initial (holding "old" 10000000)
                    (script [1000; 1001] [reply 500 (JObj [])]
                            [reply 401 (JObj []); reply 200 (JObj [])]) in
  let run := withErrorHandling endpoint st in
  (exists st1 w2,
      authHeaders st = (Returned (bearer "old"), st1)
      /\ endpoint (bearer "old") (world st1) = (reply 401 (JObj []), w2))
  /\ fst run = Threw (VouchsafeApiError 500 (JObj []) "Authentication failed")
  /\ trace (snd run)
     = [EvRequest (bearer "old");
        EvAuthenticate {| input_client_id := "id"; input_client_secret := "secret" |}]
  /\ request_calls (trace (snd run)) = 1%nat
  /\ replies (world (snd run)) = [reply 200 (JObj [])].
Proof.
  repeat split.
  eexists. eexists. split; reflexivity.
Qed.

(** The third scenario of the specification: a 404 with a message. *)
Lemma other_failure_not_retried_witness :
  let st := initial (holding "abc" 3600000)
                    (script [1000] []
                            [reply 404 (JObj [("message", JStr "not found")]);
                             reply 200 (JObj [])]) in
  exists msg st',
    withErrorHandling endpoint st
    = (Threw (VouchsafeApiError 404 (JObj [("message", JStr "not found")]) msg), st')
    /\ msg = "not found"
    /\ request_calls (trace st') = 1%nat.
Proof.
  intros st.
  destruct (FetchClientFacts.other_failure_not_retried
              Date_now Date_of ToString_other authenticate endpoint) as [Hfirst _].
  destruct (Hfirst st
              {| client := holding "abc" 3600000;
                 world := script [] []
                            [reply 404 (JObj [("message", JStr "not found")]);
                             reply 200 (JObj [])];
                 trace := [] |}
              (bearer "abc")
              {| FetchClient.status := 404;
                 FetchClient.data := JObj [("message", JStr "not found")] |}
              (script [] [] [reply 200 (JObj [])]))
    as [msg [st' [Hrun [_ [Hcount [Hmsg _]]]]]].
  - reflexivity.
  - reflexivity.
  - reflexivity.
  - discriminate.
  - exists msg, st'. split; [exact Hrun|].
    split; [apply Hmsg; reflexivity | exact Hcount].
Defined.

(** A 500 whose body cannot be parsed becomes a typed error over [{}]. *)
Lemma body_read_failure_tolerated_witness :
  let broken := {| response_status := 500;
                   response_statusText := "Internal Server Error";
                   response_json := None |} in
  let st := initial (holding "abc" 3600000)
                    (api_script [] [] [Threw (ResponseError broken)]) in
  ApiClient.withErrorHandling Script Date_now Date_of ToString_other
    authenticationApi_authenticate (api_call "getVerification") st
  = (Threw (VouchsafeApiError 500 (JObj []) "Internal Server Error"),
     {| client := holding "abc" 3600000; world := api_script [] [] [];
        trace := [EvApiCall "getVerification"] |}).
Proof.
  intros broken st.
  destruct (ApiClientFacts.body_read_failure_tolerated
              Date_now Date_of ToString_other authenticationApi_authenticate
              (api_call "getVerification") st
              {| client := holding "abc" 3600000; world := api_script [] [] [];
                 trace := [EvApiCall "getVerification"] |})
    as [Hbody _].
  apply (Hbody broken).
  - reflexivity.
  - discriminate.
  - reflexivity.
Defined.

(** C2 on the client over the Api classes.  [listFlows] puts the wrapper
    around itself.  With two 401 replies and then a list, the call wrapped
    once gives up after its one retry, whereas [listFlows] authenticates a
    second time, invokes the thunk a third time and returns the list. *)
Theorem listFlows_retries_twice :
  let st := initial (constructor credentials)
              (api_script [1000; 1001; 1002]
                 [Returned (token_body "t1" 10000000);
                  Returned (token_body "t2" 10000000);
                  Returned (token_body "t3" 10000000)]
                 [Threw (ResponseError unauthorized);
                  Threw (ResponseError unauthorized);
                  Returned (JArr [])]) in
  let once :=
    ApiClient.withErrorHandling Script Date_now Date_of ToString_other
      authenticationApi_authenticate (api_call "listFlows") st in
  let method :=
    ApiClient.listFlows Script Date_now Date_of ToString_other
      authenticationApi_authenticate (api_call "listFlows") st in
  fst once = Threw (ResponseError unauthorized)
  /\ request_calls (trace (snd once)) = 2%nat
  /\ authenticate_calls (trace (snd once)) = 1%nat
  /\ fst method = Returned (JArr [])
  /\ request_calls (trace (snd method)) = 3%nat
  /\ authenticate_calls (trace (snd method)) = 2%nat
  /\ method <> once.
Proof.
  repeat split.
  intros H. apply (f_equal fst) in H. vm_compute in H. discriminate H.
Qed.

(** C6 on the client over the Api classes.  A reply that carries a token
    and no expiry is not refused: the token is returned and stored next to
    an invalid date. *)
Theorem partial_token_cached :
  let run :=
    ApiClient.getAccessToken Script Date_now Date_of authenticationApi_authenticate
      (initial (constructor credentials)
         (api_script [1000] [Returned (JObj [("access_token", JStr "abc")])] [])) in
  fst run = Returned (JStr "abc")
  /\ token (client (snd run)) = JStr "abc"
  /\ tokenExpiry (client (snd run)) = Some InvalidDate.
Proof.
  repeat split.
Qed.

(** ** Runs for the further properties *)

(** The run of the second scenario: 401, a new token, then the payload. *)
Lemma cache_stays_consistent_witness :
  let run := withErrorHandling endpoint
               (initial (holding "old" 10000000)
                  (script [1000; 1001] [reply 201 (token_body "new" 20000000)]
                     [reply 401 (JObj []); reply 200 (JObj [("id", JStr "X")])])) in
  cache_consistent (constructor credentials)
  /\ cache_consistent (client (snd run)).
Proof.
  intros run.
  destruct (FetchClientFacts.cache_stays_consistent
              Date_now Date_of ToString_other authenticate) as [Hnew Hkeep].
  split; [apply Hnew|].
  apply (Hkeep endpoint
           (initial (holding "old" 10000000)
              (script [1000; 1001] [reply 201 (token_body "new" 20000000)]
                 [reply 401 (JObj []); reply 200 (JObj [("id", JStr "X")])]))
           (snd run) (fst run)).
  - right. split; [reflexivity|]. eexists. reflexivity.
  - apply surjective_pairing.
Defined.

Lemma credentials_never_change_witness :
  options (client (snd (withErrorHandling endpoint
                          (initial (holding "old" 10000000)
                             (script [1000; 1001] [reply 500 (JObj [])]
                                [reply 401 (JObj [])])))))
  = credentials.
Proof.
  apply (FetchClientFacts.credentials_never_change
           Date_now Date_of ToString_other authenticate endpoint
           (initial (holding "old" 10000000)
              (script [1000; 1001] [reply 500 (JObj [])] [reply 401 (JObj [])]))
           _ _ (surjective_pairing _)).
Defined.

(** Replies of 401 without end: two requests and one new token, then the
    wrapper gives up although more replies are waiting. *)
Lemma at_most_two_attempts_witness :
  let run := withErrorHandling endpoint
               (initial (holding "old" 10000000)
                  (script [1000; 1001; 1002]
                     [reply 201 (token_body "t1" 20000000);
                      reply 201 (token_body "t2" 20000000)]
                     [reply 401 (JObj []); reply 401 (JObj []);
                      reply 401 (JObj []); reply 200 (JObj [])])) in
  exists added,
    trace (snd run) = added
    /\ (request_calls added <= 2)%nat
    /\ (authenticate_calls added <= 2)%nat.
Proof.
  intros run.
  destruct (FetchClientFacts.at_most_two_attempts
              Date_now Date_of ToString_other authenticate endpoint
              (initial (holding "old" 10000000)
                 (script [1000; 1001; 1002]
                    [reply 201 (token_body "t1" 20000000);
                     reply 201 (token_body "t2" 20000000)]
                    [reply 401 (JObj []); reply 401 (JObj []);
                     reply 401 (JObj []); reply 200 (JObj [])]))
              (snd run) (fst run) (surjective_pairing _))
    as [added [Htrace [Hr [Ha _]]]].
  exists added. repeat split; assumption.
Defined.

Lemma payload_comes_from_success_witness :
  let st := initial (holding "old" 10000000)
              (script [1000; 1001] [reply 201 (token_body "new" 20000000)]
                 [reply 401 (JObj []); reply 200 (JObj [("id", JStr "X")])]) in
  let st' := snd (withErrorHandling endpoint st) in
  token (client st') = JStr "new"
  /\ exists r w0 sent,
      endpoint (bearer "new") w0 = (Returned r, world st')
      /\ FetchClient.is_success (FetchClient.status r) = true
      /\ JObj [("id", JStr "X")] = FetchClient.data r
      /\ trace st' = (sent ++ [EvRequest (bearer "new")])%list.
Proof.
  intros st st'.
  split; [reflexivity|].
  destruct (FetchClientFacts.payload_comes_from_success
              Date_now Date_of ToString_other authenticate endpoint st st'
              (JObj [("id", JStr "X")]) eq_refl) as [_ H].
  exact H.
Defined.

(** Credentials that [authenticate] answers with 401: two calls, no
    request. *)
Lemma authenticate_401_retried_witness :
  withErrorHandling endpoint
    (initial (constructor credentials)
       (script [1000; 1001]
          [reply 401 (JObj [("message", JStr "bad credentials")]);
           reply 401 (JObj [("message", JStr "bad credentials")])]
          [reply 200 (JObj [])]))
  = (Threw (VouchsafeApiError 401 (JObj [("message", JStr "bad credentials")])
              "Authentication failed"),
     {| client := constructor credentials;
        world := script [] [] [reply 200 (JObj [])];
        trace := [EvAuthenticate (FetchClient.authBody_of (constructor credentials));
                  EvAuthenticate (FetchClient.authBody_of (constructor credentials))] |}).
Proof.
  destruct (FetchClientFacts.authenticate_401_retried
              Date_now Date_of ToString_other authenticate endpoint
              (constructor credentials)
              (script [1000; 1001]
                 [reply 401 (JObj [("message", JStr "bad credentials")]);
                  reply 401 (JObj [("message", JStr "bad credentials")])]
                 [reply 200 (JObj [])])
              (script [1001]
                 [reply 401 (JObj [("message", JStr "bad credentials")]);
                  reply 401 (JObj [("message", JStr "bad credentials")])]
                 [reply 200 (JObj [])])
              (script [1001]
                 [reply 401 (JObj [("message", JStr "bad credentials")])]
                 [reply 200 (JObj [])])
              [] 1000
              {| FetchClient.status := 401;
                 FetchClient.data := JObj [("message", JStr "bad credentials")] |})
    as [_ Hsecond].
  - reflexivity.
  - left. reflexivity.
  - reflexivity.
  - reflexivity.
  - apply (Hsecond 1001
             (script [] [reply 401 (JObj [("message", JStr "bad credentials")])]
                [reply 200 (JObj [])])
             {| FetchClient.status := 401;
                FetchClient.data := JObj [("message", JStr "bad credentials")] |}
             (script [] [] [reply 200 (JObj [])])).
    + reflexivity.
    + reflexivity.
    + discriminate.
Defined.


(** A token good for an hour is reused by the next call; a token whose
    [expires_at] is the text "soon" is not. *)
Lemma refreshed_token_reused_or_not_witness :
  (getAccessToken ;;; getAccessToken)
    (initial (constructor credentials)
       (script [1000; 2000] [reply 201 (token_body "abc" 3601000)] []))
  = (Returned (JStr "abc"),
     {| client := holding "abc" 3601000; world := script [] [] [];
        trace := [EvAuthenticate (FetchClient.authBody_of
                                    (constructor credentials))] |})
  /\ exists out c',
      (getAccessToken ;;; getAccessToken)
        (initial (constructor credentials)
           (script [1000; 2000]
              [reply 201 (JObj [("access_token", JStr "abc");
                                ("expires_at", JStr "soon")]);
               reply 201 (token_body "def" 3602000)] []))
      = (out,
         {| client := c'; world := script [] [] [];
            trace := [EvAuthenticate (FetchClient.authBody_of
                                        (constructor credentials));
                      EvAuthenticate (FetchClient.authBody_of
                                        (constructor credentials))] |}).
Proof.
  split.
  - destruct (FetchClientFacts.refreshed_token_reused_or_not
                Date_now Date_of authenticate
                (constructor credentials)
                (script [1000; 2000] [reply 201 (token_body "abc" 3601000)] [])
                (script [2000] [reply 201 (token_body "abc" 3601000)] [])
                (script [2000] [] []) (script [] [] []) [] 1000 2000
                {| FetchClient.status := 201;
                   FetchClient.data := token_body "abc" 3601000 |}
                (JStr "abc") (JNum 3601000)
                eq_refl (or_introl eq_refl) eq_refl eq_refl eq_refl eq_refl
                eq_refl eq_refl eq_refl) as [Hreuse _].
    apply (Hreuse 3601000); [reflexivity | unfold bufferMs; lia].
  - destruct (FetchClientFacts.refreshed_token_reused_or_not
                Date_now Date_of authenticate
                (constructor credentials)
                (script [1000; 2000]
                   [reply 201 (JObj [("access_token", JStr "abc");
                                     ("expires_at", JStr "soon")]);
                    reply 201 (token_body "def" 3602000)] [])
                (script [2000]
                   [reply 201 (JObj [("access_token", JStr "abc");
                                     ("expires_at", JStr "soon")]);
                    reply 201 (token_body "def" 3602000)] [])
                (script [2000] [reply 201 (token_body "def" 3602000)] [])
                (script [] [reply 201 (token_body "def" 3602000)] [])
                [] 1000 2000
                {| FetchClient.status := 201;
                   FetchClient.data := JObj [("access_token", JStr "abc");
                                             ("expires_at", JStr "soon")] |}
                (JStr "abc") (JStr "soon")
                eq_refl (or_introl eq_refl) eq_refl eq_refl eq_refl eq_refl
                eq_refl eq_refl eq_refl) as [_ Hagain].
    apply (Hagain (or_introl eq_refl)
                  (reply 201 (token_body "def" 3602000)) (script [] [] [])).
    reflexivity.
Defined.

Local Abbreviation api_withErrorHandling :=
  (ApiClient.withErrorHandling Script Date_now Date_of ToString_other
     authenticationApi_authenticate).
Local Abbreviation api_getAccessToken :=
  (ApiClient.getAccessToken Script Date_now Date_of authenticationApi_authenticate).

(** A 404 with a body that says why. *)
Lemma api_error_body_translated_witness :
  let not_found := {| response_status := 404; response_statusText := "Not Found";
                      response_json := Some (JObj [("message", JStr "no such id")]) |} in
  exists msg,
    api_withErrorHandling (api_call "getVerification")
      (initial (holding "abc" 3600000)
         (api_script [] [] [Threw (ResponseError not_found)]))
    = (Threw (VouchsafeApiError 404 (JObj [("message", JStr "no such id")]) msg),
       {| client := holding "abc" 3600000; world := api_script [] [] [];
          trace := [EvApiCall "getVerification"] |})
    /\ msg = "no such id".
Proof.
  intros not_found.
  destruct (ApiClientFacts.api_error_body_translated
              Date_now Date_of ToString_other authenticationApi_authenticate
              (api_call "getVerification")
              (initial (holding "abc" 3600000)
                 (api_script [] [] [Threw (ResponseError not_found)]))
              {| client := holding "abc" 3600000; world := api_script [] [] [];
                 trace := [EvApiCall "getVerification"] |}
              not_found (JObj [("message", JStr "no such id")]))
    as [msg [Hrun [Hmsg _]]].
  - reflexivity.
  - discriminate.
  - reflexivity.
  - exists msg. split; [exact Hrun | apply Hmsg; reflexivity].
Defined.

(** On a 500 [listFlows] and the wrapper applied once do the same. *)
Lemma api_double_wrap_agrees_unless_401_witness :
  let broken := {| response_status := 500;
                   response_statusText := "Internal Server Error";
                   response_json := None |} in
  let st := initial (holding "abc" 3600000)
              (api_script [] [] [Threw (ResponseError broken)]) in
  ApiClient.listFlows Script Date_now Date_of ToString_other
    authenticationApi_authenticate (api_call "listFlows") st
  = api_withErrorHandling (api_call "listFlows") st.
Proof.
  intros broken st.
  apply (ApiClientFacts.api_double_wrap_agrees_unless_401
           Date_now Date_of ToString_other authenticationApi_authenticate
           (api_call "listFlows") st
           {| client := holding "abc" 3600000; world := api_script [] [] [];
              trace := [EvApiCall "listFlows"] |}
           (Threw (ResponseError broken))).
  - reflexivity.
  - intros response H. injection H as <-. discriminate.
Defined.

(** A 401 and then a 503 on the retry: the wrapper alone passes the 503 on
    as the error response it is, [listFlows] turns it into the typed
    error. *)
Lemma api_double_wrap_second_round_witness :
  let busy := {| response_status := 503;
                 response_statusText := "Service Unavailable";
                 response_json := None |} in
  let st := initial (holding "old" 3600000)
              (api_script [1000] [Returned (token_body "new" 7200000)]
                 [Threw (ResponseError unauthorized); Threw (ResponseError busy)]) in
  let st3 := {| client := holding "new" 7200000; world := api_script [] [] [];
                trace := [EvApiCall "listFlows";
                          EvAuthenticate (ApiClient.authBody_of (holding "old" 3600000));
                          EvApiCall "listFlows"] |} in
  api_withErrorHandling (api_call "listFlows") st = (Threw (ResponseError busy), st3)
  /\ ApiClient.listFlows Script Date_now Date_of ToString_other
       authenticationApi_authenticate (api_call "listFlows") st
     = (Threw (VouchsafeApiError 503 (JObj []) "Service Unavailable"), st3).
Proof.
  intros busy st st3.
  destruct (ApiClientFacts.api_double_wrap_second_round
              Date_now Date_of ToString_other authenticationApi_authenticate
              (api_call "listFlows") st
              {| client := holding "old" 3600000;
                 world := api_script [1000] [Returned (token_body "new" 7200000)]
                            [Threw (ResponseError busy)];
                 trace := [EvApiCall "listFlows"] |}
              {| client := holding "new" 7200000;
                 world := api_script [] [] [Threw (ResponseError busy)];
                 trace := [EvApiCall "listFlows";
                           EvAuthenticate
                             (ApiClient.authBody_of (holding "old" 3600000))] |}
              st3 unauthorized busy (JStr "new")
              eq_refl eq_refl eq_refl eq_refl) as [Hone [_ Htwo]].
  split; [exact Hone|].
  apply Htwo. discriminate.
Defined.

(** Four 401 replies in a row, with tokens that are stale as soon as
    they arrive, for a generated call that asks for the token before it
    sends: the wrapper applied once sends 2 requests and asks for 3
    tokens, [listFlows] sends 4 and asks for 7. *)
Lemma api_network_calls_bounded_witness :
  let pop := fun (_ : JSValue) (s : Script) =>
               match api_replies s with
               | [] => (Threw fetch_failed, s)
               | r :: rest =>
                   (r, {| times := times s; auth_replies := auth_replies s;
                          replies := replies s;
                          api_auth_replies := api_auth_replies s;
                          api_replies := rest |})
               end in
  let call := (let* t := api_getAccessToken in io (EvApiCall "listFlows") (pop t)) in
  let st := initial (constructor credentials)
              (api_script [1000; 1001; 1002; 1003; 1004; 1005; 1006]
                 [Returned (token_body "t1" 2000); Returned (token_body "t2" 2000);
                  Returned (token_body "t3" 2000); Returned (token_body "t4" 2000);
                  Returned (token_body "t5" 2000); Returned (token_body "t6" 2000);
                  Returned (token_body "t7" 2000); Returned (token_body "t8" 2000)]
                 [Threw (ResponseError unauthorized);
                  Threw (ResponseError unauthorized);
                  Threw (ResponseError unauthorized);
                  Threw (ResponseError unauthorized);
                  Returned (JArr [])]) in
  let once := api_withErrorHandling call st in
  let method :=
    ApiClient.listFlows Script Date_now Date_of ToString_other
      authenticationApi_authenticate call st in
  (exists added, trace (snd once) = added
                 /\ (request_calls added <= 2)%nat
                 /\ (authenticate_calls added <= 3)%nat)
  /\ (exists added, trace (snd method) = added
                    /\ (request_calls added <= 4)%nat
                    /\ (authenticate_calls added <= 7)%nat)
  /\ request_calls (trace (snd once)) = 2%nat
  /\ authenticate_calls (trace (snd once)) = 3%nat
  /\ request_calls (trace (snd method)) = 4%nat
  /\ authenticate_calls (trace (snd method)) = 7%nat.
Proof.
  intros pop call st once method.
  destruct (ApiClientFacts.api_network_calls_bounded
              Date_now Date_of ToString_other authenticationApi_authenticate)
    as [_ [_ Hcall]].
  destruct (Hcall "listFlows" pop) as [_ [Hone Htwo]].
  split; [|split; [|repeat split]].
  - exact (Hone st (snd once) (fst once) (surjective_pairing _)).
  - exact (Htwo st (snd method) (fst method) (surjective_pairing _)).
Defined.

(** ** Runs of the index script *)

Import ModelExports.

Example index_of_three_files :
  content [units "b.ts"; units "index.ts"; units "README.md"; units "a.ts"]
  = (units "/* tslint:disable */" ++ newline
     ++ units "/* eslint-disable */" ++ newline
     ++ units "// This file is auto-generated. Do not edit manually." ++ newline
     ++ units "export * from './a';" ++ newline
     ++ units "export * from './b';" ++ newline)%list.
Proof. reflexivity. Qed.

Lemma content_order_independent_witness :
  content [units "b.ts"; units "index.ts"; units "a.ts"]
  = content [units "a.ts"; units "b.ts"; units "index.ts"].
Proof.
  apply (ModelExportsFacts.content_order_independent
           [units "b.ts"; units "index.ts"; units "a.ts"]
           [units "a.ts"; units "b.ts"; units "index.ts"]).
  apply perm_trans with [units "b.ts"; units "a.ts"; units "index.ts"].
  - apply perm_skip. apply perm_swap.
  - apply perm_swap.
Defined.

(** [Verification.ts] gives [Verification]; [a.ts.old.ts] gives
    [a.old.ts]. *)
Lemma first_ts_is_cut_witness :
  replace (units "Verification.ts") (units ".ts") [] = units "Verification"
  /\ replace (units "a.ts.old.ts") (units ".ts") [] = units "a.old.ts".
Proof.
  split.
  - apply (ModelExportsFacts.first_ts_is_cut (units "Verification") []).
    vm_compute. intuition discriminate.
  - apply (ModelExportsFacts.first_ts_is_cut (units "a") (units ".old.ts")).
    vm_compute. intuition discriminate.
Defined.

Lemma model_file_exported_witness :
  In (units "Verification")
     (files [units "index.ts"; units "Verification.ts"; units "Flow.ts"]).
Proof.
  apply (ModelExportsFacts.model_file_exported (units "Verification")).
  - right. left. reflexivity.
  - vm_compute. intuition discriminate.
  - discriminate.
Defined.

Lemma index_never_exported_witness :
  ~ In (units "index")
       (files [units "index.ts"; units "index"; units "Flow.ts"]).
Proof.
  apply ModelExportsFacts.index_never_exported.
Defined.

End Runs.
